(** * WhatsAppChatAnalysis: the parsing core of [main.py]

    A shallow embedding of the record-reconstruction part of [main]
    (source lines 45-69): the regular-expression line classifier, the
    timestamp conversion, the forward fill of continuation lines, and the
    response-time computation with its outer merge.

    Conventions of the model.
    - A character is a code point below 256 ([ascii]); in that range the
      class [\d] of Python's [re] is exactly ['0'..'9'].
    - A [datetime64] value is an integer number of seconds since
      1970-01-01 00:00:00 (pandas stores nanoseconds; every value here is a
      whole second), a [timedelta64] likewise; [NaT], [NaN] and [None] are
      [None].
    - A DataFrame before the merge is a list of rows, each with the index
      label it got from the [DataFrame] constructor (the line number); the
      merge result carries a fresh [RangeIndex], so it is a plain list.
    - pandas semantics are those of the 1.x series the script was written
      for ([fillna(method="ffill")], [dt.round("H")]). *)

From Stdlib Require Import List Bool Arith ZArith Lia.
From Stdlib Require Import Ascii String.
From Stdlib Require Import Sorting.Sorted Sorting.Permutation.
Import ListNotations.

Local Open Scope string_scope.
Local Open Scope Z_scope.
Local Open Scope list_scope.

(** ** Exceptions the modelled code can raise *)

Inductive Error : Type :=
| AttributeError   (* [re.search(...)] returned [None]; [.groupdict()] on it *)
| KeyError         (* [df["message"]] on a frame without columns *)
| ValueError.      (* [pd.to_datetime]: time data does not match format *)

Definition Result (A : Type) : Type := (Error + A)%type.

Definition ok {A} (a : A) : Result A := inr a.
Definition raise {A} (e : Error) : Result A := inl e.

Definition bind {A B} (r : Result A) (f : A -> Result B) : Result B :=
  match r with
  | inl e => inl e
  | inr a => f a
  end.

Notation "x <- r ;; k" := (bind r (fun x => k))
  (at level 61, r at next level, right associativity).

(** [[f(x) for x in xs]] where [f] may raise: the first exception wins. *)
Fixpoint mapM {A B} (f : A -> Result B) (xs : list A) : Result (list B) :=
  match xs with
  | [] => ok []
  | x :: t => y <- f x ;; ys <- mapM f t ;; ok (y :: ys)
  end.

(** ** Regular expressions (the fragment of [re] the pattern uses) *)

Module Re.

Definition text := list ascii.

Inductive regex : Type :=
| Chr (p : ascii -> bool)          (* one character of a class *)
| Cat (r1 r2 : regex)              (* r1 r2 *)
| Opt (r : regex)                  (* r?   greedy *)
| Star (r : regex)                 (* r*   greedy *)
| Rep (n : nat) (r : regex)        (* r{n} *)
| Grp (name : string) (r : regex). (* (?P<name>r) *)

(** Captured groups, most recent capture first. *)
Definition groups := list (string * text).

Fixpoint lookup (name : string) (g : groups) : option text :=
  match g with
  | [] => None
  | (n, v) :: t => if String.eqb n name then Some v else lookup name t
  end.

(** The part of [s] consumed when [s'] is what remains. *)
Definition consumed (s s' : text) : text :=
  firstn (List.length s - List.length s') s.

(** Backtracking matcher in continuation-passing style: [m r s g k] matches
    [r] at the start of [s] and hands the rest to [k]; when [k] fails the
    next alternative of [r] is tried, greedy choices first. *)
Fixpoint m (r : regex) (s : text) (g : groups)
         (k : text -> groups -> option groups) {struct r} : option groups :=
  match r with
  | Chr p =>
      match s with
      | c :: t => if p c then k t g else None
      | [] => None
      end
  | Cat r1 r2 => m r1 s g (fun s' g' => m r2 s' g' k)
  | Opt r1 =>
      match m r1 s g k with
      | Some g' => Some g'
      | None => k s g
      end
  | Star r1 =>
      (fix star (fuel : nat) (s : text) (g : groups) {struct fuel} : option groups :=
         match fuel with
         | O => k s g
         | S fuel' =>
             match m r1 s g (fun s' g' =>
                               if (List.length s' <? List.length s)%nat
                               then star fuel' s' g' else None) with
             | Some g' => Some g'
             | None => k s g
             end
         end) (List.length s) s g
  | Rep n r1 =>
      (fix rep (n : nat) (s : text) (g : groups) {struct n} : option groups :=
         match n with
         | O => k s g
         | S n' => m r1 s g (fun s' g' => rep n' s' g')
         end) n s g
  | Grp name r1 =>
      m r1 s g (fun s' g' => k s' ((name, consumed s s') :: g'))
  end.

(** [re.search]: the leftmost start position at which the pattern matches. *)
Fixpoint search (r : regex) (s : text) : option groups :=
  match m r s [] (fun _ g => Some g) with
  | Some g => Some g
  | None =>
      match s with
      | [] => None
      | _ :: t => search r t
      end
  end.

End Re.

(** ** The line pattern of [main] *)

Definition newline : ascii := ascii_of_nat 10.

(** [\d] *)
Definition is_digit (c : ascii) : bool :=
  ((48 <=? nat_of_ascii c) && (nat_of_ascii c <=? 57))%nat.

(** [.] (no DOTALL flag): anything but a newline *)
Definition dot (c : ascii) : bool := negb (Ascii.eqb c newline).

(** a literal character *)
Definition lit (c : ascii) : Re.regex := Re.Chr (Ascii.eqb c).

(** [[^:]] *)
Definition not_colon (c : ascii) : bool := negb (Ascii.eqb c ":").

Definition d2 : Re.regex := Re.Rep 2 (Re.Chr is_digit).

Fixpoint cat (rs : list Re.regex) (last : Re.regex) : Re.regex :=
  match rs with
  | [] => last
  | r :: t => Re.Cat r (cat t last)
  end.

(** The datetime group: \d{2}.\d{2}.\d{2}, \d{2}:\d{2}:\d{2} *)
Definition datetime_re : Re.regex :=
  cat [d2; Re.Chr dot; d2; Re.Chr dot; d2; lit ","; lit " ";
       d2; lit ":"; d2; lit ":"] d2.

(** The optional prefix of the pattern, piece by piece:
      \[   (?P<datetime> ... )   ]   space   (?P<messenger> [^:]* )   :   space
    (the unescaped closing bracket outside a class is a literal). *)
Definition prefix_re : Re.regex :=
  cat [lit "["; Re.Grp "datetime" datetime_re; lit "]"; lit " ";
       Re.Grp "messenger" (Re.Star (Re.Chr not_colon)); lit ":"] (lit " ").

(** [pattern] of the source, piece by piece:
      ( prefix )?   ( (?P<message> .* ) )
    (the unnamed groups of the source only group). *)
Definition pattern : Re.regex :=
  Re.Cat (Re.Opt prefix_re) (Re.Grp "message" (Re.Star (Re.Chr dot))).

(** [match.groupdict()]: every named group, [None] for a group that did not
    take part in the match. *)
Record GroupDict : Type := mkGroupDict {
  gd_datetime : option string;
  gd_messenger : option string;
  gd_message : option string
}.

Definition groupdict (g : Re.groups) : GroupDict :=
  {| gd_datetime := option_map string_of_list_ascii (Re.lookup "datetime" g);
     gd_messenger := option_map string_of_list_ascii (Re.lookup "messenger" g);
     gd_message := option_map string_of_list_ascii (Re.lookup "message" g) |}.

(** [re.search(pattern, line).groupdict()] *)
Definition classify (line : string) : Result GroupDict :=
  match Re.search pattern (list_ascii_of_string line) with
  | Some g => ok (groupdict g)
  | None => raise AttributeError
  end.

(** ** Timestamps: [pd.to_datetime(..., format="%d.%m.%y, %H:%M:%S")] *)

Module Datetime.

Definition digit (c : ascii) : option Z :=
  if is_digit c then Some (Z.of_nat (nat_of_ascii c) - 48) else None.

(** A two-digit field whose value lies in [lo..hi]. *)
Definition field (lo hi : Z) (c1 c2 : ascii) : option Z :=
  match digit c1, digit c2 with
  | Some a, Some b =>
      let v := 10 * a + b in
      if (lo <=? v) && (v <=? hi) then Some v else None
  | _, _ => None
  end.

Definition is_leap (y : Z) : bool :=
  ((y mod 4 =? 0) && negb (y mod 100 =? 0)) || (y mod 400 =? 0).

Definition days_in_month (y mo : Z) : Z :=
  if mo =? 2 then (if is_leap y then 29 else 28)
  else if (mo =? 4) || (mo =? 6) || (mo =? 9) || (mo =? 11) then 30
  else 31.

(** Days from 1970-01-01 to the civil date [y]-[mo]-[d] (proleptic
    Gregorian calendar). *)
Definition days_from_civil (y mo d : Z) : Z :=
  let y' := if mo <=? 2 then y - 1 else y in
  let era := y' / 400 in
  let yoe := y' - era * 400 in
  let mp := (mo + 9) mod 12 in
  let doy := (153 * mp + 2) / 5 + d - 1 in
  let doe := yoe * 365 + yoe / 4 - yoe / 100 + doy in
  era * 146097 + doe - 719468.

(** [%y]: 00..68 are 2000..2068, 69..99 are 1969..1999. *)
Definition century (yy : Z) : Z :=
  if yy <=? 68 then 2000 + yy else 1900 + yy.

(** The strings this is applied to are captures of the [datetime] group, 18
    characters [dd?dd?dd, dd:dd:dd] with [?] any character; the format asks
    for a full match with ['.'] at both [?], a day 01..31 that exists in the
    month, a month 01..12, an hour 00..23, a minute 00..59 and a second
    00..61 (the directive [%S] admits leap seconds, which are added on).
    [None] stands for the [ValueError] raised on anything else. *)
Definition strptime (s : string) : option Z :=
  match list_ascii_of_string s with
  | [a1; a2; p1; b1; b2; p2; y1; y2; co; sp; h1; h2; q1; n1; n2; q2; s1; s2] =>
      if Ascii.eqb p1 "." && Ascii.eqb p2 "." && Ascii.eqb co "," &&
         Ascii.eqb sp " " && Ascii.eqb q1 ":" && Ascii.eqb q2 ":"
      then
        match field 1 31 a1 a2, field 1 12 b1 b2, field 0 99 y1 y2,
              field 0 23 h1 h2, field 0 59 n1 n2, field 0 61 s1 s2 with
        | Some d, Some mo, Some yy, Some h, Some mi, Some se =>
            let y := century yy in
            if d <=? days_in_month y mo
            then Some (days_from_civil y mo d * 86400 + h * 3600 + mi * 60 + se)
            else None
        | _, _, _, _, _, _ => None
        end
      else None
  | _ => None
  end.

(** One element of the column: [None] stays [NaT]. *)
Definition to_datetime (v : option string) : Result (option Z) :=
  match v with
  | None => ok None
  | Some s =>
      match strptime s with
      | Some t => ok (Some t)
      | None => raise ValueError
      end
  end.

(** [.dt.date] and [.dt.time] of one element: the day number and the second
    of the day. *)
Definition date_of (t : option Z) : option Z := option_map (fun x => x / 86400) t.
Definition time_of (t : option Z) : option Z := option_map (fun x => x mod 86400) t.

(** [pd.Timedelta(h, unit="h")] *)
Definition hours (h : Z) : Z := h * 3600.

End Datetime.

(** ** DataFrames *)

(** A frame: rows in order, each with its index label. *)
Definition Frame (A : Type) : Type := list (nat * A).

(** [pd.DataFrame(data)]: a [RangeIndex] over the rows. *)
Definition DataFrame {A} (data : list A) : Frame A :=
  combine (seq 0 (List.length data)) data.

(** [df[mask]] for a boolean series [mask] aligned with [df]. *)
Definition boolean_index {A} (df : list A) (mask : list bool) : list A :=
  map fst (filter snd (combine df mask)).

(** [series.shift(1)]: one place down, a missing value on top. *)
Definition shift1 {A} (col : list (option A)) : list (option A) :=
  match col with
  | [] => []
  | _ :: _ => None :: removelast col
  end.

(** Row type after the conversion of [datetime] and the two derived
    columns. *)
Record Row : Type := mkRow {
  datetime : option Z;
  messenger : option string;
  message : option string;
  date : option Z;
  time : option Z
}.

(** The frame after the merge has one more column. *)
Record RowRT : Type := mkRowRT {
  base : Row;
  response_time : option Z
}.

Definition opt_eqb {A} (eqb : A -> A -> bool) (a b : option A) : bool :=
  match a, b with
  | Some x, Some y => eqb x y
  | None, None => true
  | _, _ => false
  end.

(** Equality of join keys; missing values form one group of their own. *)
Definition Row_eqb (a b : Row) : bool :=
  opt_eqb Z.eqb (datetime a) (datetime b) &&
  opt_eqb String.eqb (messenger a) (messenger b) &&
  opt_eqb String.eqb (message a) (message b) &&
  opt_eqb Z.eqb (date a) (date b) &&
  opt_eqb Z.eqb (time a) (time b).

(** [df["message"] != ""], elementwise. *)
Definition message_ne_empty (g : GroupDict) : bool :=
  match gd_message g with
  | Some s => negb (String.eqb s "")
  | None => true
  end.

(** Lines 57-59 on one row: the timestamp is parsed, [date] and [time] are
    read off it. *)
Definition convert (g : GroupDict) : Result Row :=
  t <- Datetime.to_datetime (gd_datetime g) ;;
  ok {| datetime := t;
        messenger := gd_messenger g;
        message := gd_message g;
        date := Datetime.date_of t;
        time := Datetime.time_of t |}.

Definition convert_row (r : nat * GroupDict) : Result (nat * Row) :=
  row <- convert (snd r) ;; ok (fst r, row).

Definition orelse {A} (a b : option A) : option A :=
  match a with
  | Some _ => a
  | None => b
  end.

(** [df.fillna(method="ffill")]: in every column a missing value takes the
    last valid value above it; [last] holds these values column by column. *)
Definition fill (last r : Row) : Row :=
  {| datetime := orelse (datetime r) (datetime last);
     messenger := orelse (messenger r) (messenger last);
     message := orelse (message r) (message last);
     date := orelse (date r) (date last);
     time := orelse (time r) (time last) |}.

Fixpoint ffill_from (last : Row) (df : Frame Row) : Frame Row :=
  match df with
  | [] => []
  | (i, r) :: t => let r' := fill last r in (i, r') :: ffill_from r' t
  end.

Definition all_missing : Row :=
  {| datetime := None; messenger := None; message := None;
     date := None; time := None |}.

Definition fillna_ffill (df : Frame Row) : Frame Row := ffill_from all_missing df.

(** [a != b] on an object column: a comparison with a missing value is
    unequal. *)
Definition ne (a b : option string) : bool :=
  match a, b with
  | Some x, Some y => negb (String.eqb x y)
  | _, _ => true
  end.

Definition zip_with {A B C} (f : A -> B -> C) (l : list A) (l' : list B) : list C :=
  map (fun ab => f (fst ab) (snd ab)) (combine l l').

(** [df["messenger"] != df["messenger"].shift(1)] *)
Definition sender_change (df : Frame Row) : list bool :=
  let col := map (fun r => messenger (snd r)) df in
  zip_with ne col (shift1 col).

(** Subtraction of timestamps; [NaT] is absorbing. *)
Definition sub (a b : option Z) : option Z :=
  match a, b with
  | Some x, Some y => Some (x - y)
  | _, _ => None
  end.

(** [series.diff()] *)
Definition diff (col : list (option Z)) : list (option Z) :=
  zip_with sub col (shift1 col).

(** [response_time <= limit], elementwise; [NaT] compares false. *)
Definition le_limit (limit : Z) (r : nat * RowRT) : bool :=
  match response_time (snd r) with
  | Some d => d <=? limit
  | None => false
  end.

(** Keys in order of first appearance. *)
Fixpoint factorize (seen : list Row) (keys : list Row) : list Row :=
  match keys with
  | [] => []
  | k :: t =>
      if existsb (Row_eqb k) seen then factorize seen t
      else k :: factorize (k :: seen) t
  end.

Definition attach (rt : option Z) (l : Row) : RowRT :=
  {| base := l; response_time := rt |}.

(** The outer join of two frames that both have rows, on all common
    columns.  Groups of equal keys come in order of first appearance (left
    frame first), and inside a group every left row is paired with every
    right row; a left row without partner gets a missing [response_time], a
    right row without partner is kept as it is.  (Later releases of pandas
    sort the groups by key; the pairing inside a group is the same.) *)
Definition merge_groups (left : list Row) (right : list RowRT) : list RowRT :=
  flat_map
    (fun k =>
       let ls := filter (Row_eqb k) left in
       let rs := filter (fun r => Row_eqb k (base r)) right in
       match ls, rs with
       | _, [] => map (attach None) ls
       | [], _ => rs
       | _, _ => flat_map (fun l => map (fun r => attach (response_time r) l) rs) ls
       end)
    (factorize [] (left ++ map base right)).

(** [pd.merge(left, right, how="outer")] with [right] holding all columns
    of [left] and [response_time].  When one of the frames has no row the
    other one is returned as it is, in its own order, with the missing
    column empty; otherwise the keys are grouped as in [merge_groups]. *)
Definition merge (left : list Row) (right : list RowRT) : list RowRT :=
  match right with
  | [] => map (attach None) left
  | _ :: _ =>
      match left with
      | [] => right
      | _ :: _ => merge_groups left right
      end
  end.

(** ** The pipeline of [main], lines 45-69 *)

Definition response_timelimit : Z := 6.

(** Lines 49-50: [data]. *)
Definition collect (lines : list string) : Result (list GroupDict) :=
  mapM classify lines.

(** Lines 53-54: the frame without the empty messages.  A frame built from
    no record at all has no column to select. *)
Definition nonempty_messages (data : list GroupDict) : Result (Frame GroupDict) :=
  match data with
  | [] => raise KeyError
  | _ :: _ => ok (boolean_index (DataFrame data) (map message_ne_empty data))
  end.

(** Lines 53-62: the reconstructed records. *)
Definition records (data : list GroupDict) : Result (Frame Row) :=
  df <- nonempty_messages data ;;
  df <- mapM convert_row df ;;
  ok (fillna_ffill df).

(** Lines 65-68: [df_response_times]. *)
Definition response_times (limit : Z) (df : Frame Row) : Frame RowRT :=
  let df_response_times := boolean_index df (sender_change df) in
  let response_time :=
    diff (map (fun r => datetime (snd r)) df_response_times) in
  let df_response_times :=
    zip_with (fun r d => (fst r, attach d (snd r))) df_response_times response_time in
  boolean_index df_response_times
    (map (le_limit (Datetime.hours limit)) df_response_times).

(** Line 69. *)
Definition estimate (limit : Z) (df : Frame Row) : list RowRT :=
  merge (map snd df) (map snd (response_times limit df)).

Definition reconstruct (lines : list string) : Result (Frame Row) :=
  data <- collect lines ;;
  records data.

Definition main (lines : list string) : Result (list RowRT) :=
  df <- reconstruct lines ;;
  ok (estimate response_timelimit df).

(** * Vocabulary of the statements *)

(** ** The classifier, read off the grammar

    The second definition of the classifier: what the grammar of section 4.1
    of the specification says, without the matcher.  The matcher is proved
    to compute it on every line. *)

Fixpoint take_while (p : ascii -> bool) (s : Re.text) : Re.text :=
  match s with
  | c :: t => if p c then c :: take_while p t else []
  | [] => []
  end.

Fixpoint drop_while (p : ascii -> bool) (s : Re.text) : Re.text :=
  match s with
  | c :: t => if p c then drop_while p t else s
  | [] => []
  end.

(** [s] starts with one character of each class of [cs], in order. *)
Fixpoint has_shape (cs : list (ascii -> bool)) (s : Re.text) : bool :=
  match cs, s with
  | [], _ => true
  | p :: cs', c :: s' => p c && has_shape cs' s'
  | _ :: _, [] => false
  end.

Definition datetime_shape : list (ascii -> bool) :=
  [is_digit; is_digit; dot; is_digit; is_digit; dot; is_digit; is_digit;
   Ascii.eqb ","; Ascii.eqb " ";
   is_digit; is_digit; Ascii.eqb ":"; is_digit; is_digit; Ascii.eqb ":";
   is_digit; is_digit].

(** The bracketed timestamp, the sender up to the first colon, and what
    follows the colon and the space; [None] when the line does not start
    this way. *)
Definition split_prefix (s : Re.text) : option (Re.text * Re.text * Re.text) :=
  match s with
  | c :: t =>
      if Ascii.eqb "[" c && has_shape datetime_shape t then
        match skipn 18 t with
        | c1 :: c2 :: t2 =>
            if Ascii.eqb "]" c1 && Ascii.eqb " " c2 then
              match drop_while not_colon t2 with
              | c3 :: c4 :: rest =>
                  if Ascii.eqb ":" c3 && Ascii.eqb " " c4
                  then Some (firstn 18 t, take_while not_colon t2, rest)
                  else None
              | _ => None
              end
            else None
        | _ => None
        end
      else None
  | [] => None
  end.

Definition parsed_line (line : string) : GroupDict :=
  let s := list_ascii_of_string line in
  match split_prefix s with
  | Some (dt, who, rest) =>
      {| gd_datetime := Some (string_of_list_ascii dt);
         gd_messenger := Some (string_of_list_ascii who);
         gd_message := Some (string_of_list_ascii (take_while dot rest)) |}
  | None =>
      {| gd_datetime := None;
         gd_messenger := None;
         gd_message := Some (string_of_list_ascii (take_while dot s)) |}
  end.

(** [r] matches exactly the strings that start with the classes [cs], and
    consumes that much. *)
Definition fixed (r : Re.regex) (cs : list (ascii -> bool)) : Prop :=
  forall s g k,
    Re.m r s g k = if has_shape cs s then k (skipn (List.length cs) s) g else None.

(** ** Lines and what the frame holds of them *)

Definition is_some {A} (o : option A) : bool :=
  match o with
  | Some _ => true
  | None => false
  end.

(** The line starts a message: the prefix matched. *)
Definition has_prefix (line : string) : bool :=
  match classify line with
  | inr g => is_some (gd_messenger g)
  | inl _ => false
  end.

(** The line survives [df[df["message"] != ""]]. *)
Definition kept (line : string) : bool :=
  match classify line with
  | inr g => message_ne_empty g
  | inl _ => false
  end.

Definition body (line : string) : option string :=
  match classify line with
  | inr g => gd_message g
  | inl _ => None
  end.

Definition sender (line : string) : option string :=
  match classify line with
  | inr g => gd_messenger g
  | inl _ => None
  end.

(** The timestamp of the line as [pd.to_datetime] reads it. *)
Definition timestamp (line : string) : Result (option Z) :=
  g <- classify line ;; Datetime.to_datetime (gd_datetime g).

(** The line does not stop the conversion of line 57: it is not in the frame
    any more, or its timestamp parses. *)
Definition timestamp_ok (line : string) : bool :=
  negb (kept line) ||
  match timestamp line with
  | inr _ => true
  | inl _ => false
  end.

(** The row of a line of the frame before the forward fill. *)
Definition raw_row (line : string) : Row :=
  let t := match timestamp line with
           | inr t => t
           | inl _ => None
           end in
  {| datetime := t;
     messenger := sender line;
     message := body line;
     date := Datetime.date_of t;
     time := Datetime.time_of t |}.

(** The frame before the forward fill, labels from [n] on. *)
Fixpoint rows_from (n : nat) (lines : list string) : Frame Row :=
  match lines with
  | [] => []
  | x :: t =>
      if kept x then (n, raw_row x) :: rows_from (S n) t
      else rows_from (S n) t
  end.

(** The values carried below a frame. *)
Fixpoint carry (last : Row) (df : Frame Row) : Row :=
  match df with
  | [] => last
  | (_, r) :: t => carry (fill last r) t
  end.

(** The columns a continuation line leaves to the forward fill. *)
Definition stamp (r : Row) : option Z * option string * option Z * option Z :=
  (datetime r, messenger r, date r, time r).

Definition no_stamp : option Z * option string * option Z * option Z :=
  (None, None, None, None).

Definition nl : string := String newline EmptyString.

(** A line as [readlines] returns it, with its newline. *)
Definition ln (s : string) : string := String.append s nl.

(** ** Lines 65-68 as one pass *)

(** A column paired with itself one place down. *)
Fixpoint pairs_from {A} (prev : option A) (col : list (option A)) :
  list (option A * option A) :=
  match col with
  | [] => []
  | x :: t => (x, prev) :: pairs_from x t
  end.

(** The rows whose sender differs from the one before. *)
Fixpoint switches (prev : option string) (df : Frame Row) : Frame Row :=
  match df with
  | [] => []
  | (i, r) :: t =>
      if ne (messenger r) prev then (i, r) :: switches (messenger r) t
      else switches (messenger r) t
  end.

(** Every row with the time since the row before. *)
Fixpoint gaps (prev : option Z) (df : Frame Row) : Frame RowRT :=
  match df with
  | [] => []
  | (i, r) :: t => (i, attach (sub (datetime r) prev) r) :: gaps (datetime r) t
  end.

(** ** Properties of rows and inputs *)

Definition nonempty_body (r : Row) : Prop :=
  exists b, message r = Some b /\ b <> "".

Definition fmap {A B} (f : A -> B) (r : Result A) : Result B :=
  x <- r ;; ok (f x).

(** The timestamps of the input, in line order: one for every line whose
    prefix matches and parses. *)
Definition timestamps (lines : list string) : list Z :=
  flat_map (fun x => match timestamp x with
                     | inr (Some t) => [t]
                     | _ => []
                     end) lines.

Fixpoint nondecreasing (l : list Z) : bool :=
  match l with
  | x :: t =>
      match t with
      | y :: _ => (x <=? y) && nondecreasing t
      | [] => true
      end
  | [] => true
  end.

(** Order on a column with missing values: only valid values are compared. *)
Definition le_opt (a b : option Z) : Prop :=
  forall x y, a = Some x -> b = Some y -> x <= y.

(** The first line that is kept starts a message. *)
Definition first_kept_has_prefix (lines : list string) : bool :=
  match filter kept lines with
  | x :: _ => has_prefix x
  | [] => false
  end.

(** The sender a following row is compared with. *)
Fixpoint last_sender (prev : option string) (df : Frame Row) : option string :=
  match df with
  | [] => prev
  | (_, r) :: t => last_sender (messenger r) t
  end.

(** ** A join on the index *)

(** The response time of the first right row with the key [k]. *)
Definition response_of_key (right : list RowRT) (k : Row) : option Z :=
  match find (fun q => Row_eqb k (base q)) right with
  | Some q => response_time q
  | None => None
  end.

(** The response time of the row labelled [i]. *)
Definition response_at (rt : Frame RowRT) (i : nat) : option Z :=
  match find (fun y => Nat.eqb (fst y) i) rt with
  | Some y => response_time (snd y)
  | None => None
  end.

(** A left join on the index: every row of [df], in order, with the response
    time of the row of [rt] that has its label. *)
Definition join_on_index (df : Frame Row) (rt : Frame RowRT) : list RowRT :=
  map (fun x => attach (response_at rt (fst x)) (snd x)) df.

(** ** Concrete conversations *)

(** The record of a message: timestamp as written in the export, sender,
    body. *)
Definition record (dt who msg : string) : Row :=
  let t := Datetime.strptime dt in
  {| datetime := t; messenger := Some who; message := Some msg;
     date := Datetime.date_of t; time := Datetime.time_of t |}.

(** A record before any prefixed line. *)
Definition orphan (msg : string) : Row :=
  {| datetime := None; messenger := None; message := Some msg;
     date := None; time := None |}.

Definition scenario_A : list string :=
  [ln "[01.01.23, 10:00:00] Alice: Hi";
   ln "[01.01.23, 10:05:00] Bob: Hello";
   ln "[01.01.23, 10:06:00] Bob: How are you"].

Definition scenario_B : list string :=
  [ln "[01.01.23, 10:00:00] Alice: Hi";
   ln "there"].

(** A reply after seven hours. *)
Definition scenario_C : list string :=
  [ln "[01.01.23, 10:00:00] Alice: Hi";
   ln "[01.01.23, 17:00:00] Bob: Hello"].

(** A prefixed line without text between a message and its continuation. *)
Definition empty_between : list string :=
  [ln "[01.01.23, 10:00:00] Alice: Hi";
   ln "[01.01.23, 10:05:00] Bob: ";
   ln "there"].

(** A message of two paragraphs: the blank line is a continuation line. *)
Definition blank_continuation : list string :=
  [ln "[01.01.23, 10:00:00] Alice: Hi";
   ln "";
   ln "there"].

(** The export starts in the middle of a message. *)
Definition starts_with_continuation : list string :=
  [ln "there";
   ln "[01.01.23, 10:00:00] Alice: Hi"].

(** The first line has the prefix and no text. *)
Definition empty_first : list string :=
  [ln "[01.01.23, 10:00:00] Alice: ";
   ln "there";
   ln "more"].

(** A message and its continuation, then a line dated the thirty-first of
    February. *)
Definition bad_date_after_continuation : list string :=
  [ln "[01.01.23, 10:00:00] Alice: Hi";
   ln "there";
   ln "[31.02.23, 10:00:00] Bob: x"].

(** The thirty-first of February. *)
Definition bad_date : string := ln "[31.02.23, 10:00:00] Alice: Hi".

(** Bob sends the same text twice within one second. *)
Definition said_twice : list string :=
  [ln "[01.01.23, 10:00:00] Alice: a";
   ln "[01.01.23, 10:05:00] Bob: ok";
   ln "[01.01.23, 10:05:00] Bob: ok"].

(** Bob's message continues with a line that repeats it. *)
Definition repeated_in_continuation : list string :=
  [ln "[01.01.23, 10:00:00] Alice: a";
   ln "[01.01.23, 10:05:00] Bob: ok";
   ln "ok"].

(** Bob answers after more than seven hours, Alice and Bob then exchange
    messages within the same second, Bob with the same text again. *)
Definition late_then_same_second : list string :=
  [ln "[01.01.23, 10:00:00] Alice: a";
   ln "[01.01.23, 17:05:00] Bob: ok";
   ln "[01.01.23, 17:05:00] Alice: x";
   ln "[01.01.23, 17:05:00] Bob: ok"].

(** The same exchange five minutes after Alice's first message. *)
Definition same_second : list string :=
  [ln "[01.01.23, 10:00:00] Alice: a";
   ln "[01.01.23, 10:05:00] Bob: ok";
   ln "[01.01.23, 10:05:00] Alice: x";
   ln "[01.01.23, 10:05:00] Bob: ok"].

(** * The rest of [main.py]: word counts and the tables of the analysis *)

(** ** [compute_word_usage_frequency], lines 16-33 *)

(** [str.isspace] on one character below 256: tab to carriage return, the
    four separators 28 to 31, the space, next line (133) and the no-break
    space (160). *)
Definition is_space (c : ascii) : bool :=
  let n := nat_of_ascii c in
  ((9 <=? n) && (n <=? 13) || (28 <=? n) && (n <=? 31) ||
   (n =? 32) || (n =? 133) || (n =? 160))%nat.

(** [str.split()] without arguments: the maximal runs of characters that are
    not whitespace; [w] is the run being read, last character first. *)
Fixpoint split_acc (w : Re.text) (s : Re.text) : list Re.text :=
  match s with
  | [] =>
      match w with
      | [] => []
      | _ :: _ => [rev w]
      end
  | c :: t =>
      if is_space c then
        match w with
        | [] => split_acc [] t
        | _ :: _ => rev w :: split_acc [] t
        end
      else split_acc (c :: w) t
  end.

Definition split (message : string) : list string :=
  map string_of_list_ascii (split_acc [] (list_ascii_of_string message)).

(** A [collections.Counter]: the keys in order of insertion, each with its
    count. *)
Definition Counter : Type := list (string * nat).

(** [mapping[elem] = mapping.get(elem, 0) + 1] *)
Fixpoint count_element (elem : string) (mapping : Counter) : Counter :=
  match mapping with
  | [] => [(elem, 1%nat)]
  | (k, n) :: t =>
      if String.eqb k elem then (k, S n) :: t
      else (k, n) :: count_element elem t
  end.

(** [collections.Counter(words)] *)
Definition counter_of (words : list string) : Counter :=
  fold_left (fun mapping elem => count_element elem mapping) words [].

(** [counter[word]]: a missing key counts 0. *)
Definition counter_get (c : Counter) (word : string) : nat :=
  match find (fun kv => String.eqb (fst kv) word) c with
  | Some kv => snd kv
  | None => 0%nat
  end.

Definition compute_word_usage_frequency (message_column : list string) : Counter :=
  let words := map split message_column in
  let words := flat_map (fun sublist => sublist) words in
  counter_of words.

(** [" ".join(words)] *)
Definition join_spaces (words : list string) : string := String.concat " " words.

(** The total of a counter, [sum(counter.values())]. *)
Definition counter_total (c : Counter) : nat := list_sum (map snd c).

(** A word as [split] returns them: not empty, no whitespace in it. *)
Definition clean_word (w : Re.text) : Prop :=
  w <> [] /\ Forall (fun c => is_space c = false) w.

(** The words joined by single spaces, as a text. *)
Fixpoint join_text (ws : list Re.text) : Re.text :=
  match ws with
  | [] => []
  | w :: t =>
      match t with
      | [] => w
      | _ :: _ => w ++ " "%char :: join_text t
      end
  end.

(** ** Vocabulary for lines 45-69 *)

(** The line numbers of the lines that are kept. *)
Definition kept_labels (lines : list string) : list nat :=
  map fst (filter (fun p => kept (snd p))
                  (combine (seq 0 (List.length lines)) lines)).

(** The derived columns agree with the timestamp, and the timestamp is
    missing exactly when the sender is. *)
Definition coherent (r : Row) : Prop :=
  date r = Datetime.date_of (datetime r) /\
  time r = Datetime.time_of (datetime r) /\
  (datetime r = None <-> messenger r = None).

(** A line of the export as WhatsApp writes it. *)
Definition export_line (dt who msg : string) : string :=
  ("[" ++ dt ++ "] " ++ who ++ ": " ++ msg ++ nl)%string.

(** ** The analysis, lines 72-99 *)

Definition option_string_dec (a b : option string) : {a = b} + {a <> b}.
Proof. decide equality. apply string_dec. Defined.

Definition option_Z_dec (a b : option Z) : {a = b} + {a <> b}.
Proof. decide equality. apply Z.eq_dec. Defined.

(** Line 72, [set(df["messenger"])]: the distinct senders.  A Python set has
    no order; the list has one, and nothing below depends on it. *)
Definition messengers (df : list RowRT) : list (option string) :=
  nodup option_string_dec (map (fun r => messenger (base r)) df).

(** [a == b] on an object column: a comparison with a missing value is
    false. *)
Definition eq_obj (a b : option string) : bool :=
  match a, b with
  | Some x, Some y => String.eqb x y
  | _, _ => false
  end.

(** [df[df["messenger"] == messenger]] *)
Definition of_messenger (df : list RowRT) (m : option string) : list RowRT :=
  filter (fun r => eq_obj (messenger (base r)) m) df.

(** [len(set(df["date"]))], the divisor of lines 79 and 106. *)
Definition day_count (df : list RowRT) : nat :=
  List.length (nodup option_Z_dec (map (fun r => date (base r)) df)).

(** The dividend of line 79, [len(df[df["messenger"] == messenger])]. *)
Definition message_count (df : list RowRT) (m : option string) : nat :=
  List.length (of_messenger df m).

(** Line 91 for one sender: the [message] column of the sender's rows goes
    to [compute_word_usage_frequency]; [split] is a method of [str], so a
    missing message raises. *)
Definition word_usage_frequency (df : list RowRT) (m : option string) : Result Counter :=
  col <- mapM (fun r => match message (base r) with
                        | Some text => ok text
                        | None => raise AttributeError
                        end) (of_messenger df m) ;;
  ok (compute_word_usage_frequency col).

(** [.dt.round("H")] on seconds: to the nearest full hour, a half hour to
    the even one. *)
Definition round_H (t : Z) : Z :=
  let quotient := t / 3600 in
  let remainder := t mod 3600 in
  if (1800 <? remainder) || ((remainder =? 1800) && Z.odd quotient)
  then (quotient + 1) * 3600
  else quotient * 3600.

(** [.dt.hour] *)
Definition hour (t : Z) : Z := (t / 3600) mod 24.

(** Line 98 up to [value_counts]: the rounded hour of every message of the
    sender, missing where the timestamp is. *)
Definition rounded_hours (df : list RowRT) (m : option string) : list (option Z) :=
  map (fun r => option_map (fun t => hour (round_H t)) (datetime (base r)))
      (of_messenger df m).

(** The entry of [series.value_counts()] for the value [v], 0 when [v] is
    not in its index; missing values are not counted. *)
Definition value_counts (col : list (option Z)) (v : Z) : nat :=
  count_occ option_Z_dec col (Some v).

(** The hours of the day, 0 to 23. *)
Definition hours_of_day : list Z := map Z.of_nat (seq 0 24).

(** The reconstructed frame of [scenario_A]. *)
Definition scenario_A_df : Frame Row :=
  [(0%nat, record "01.01.23, 10:00:00" "Alice" "Hi");
   (1%nat, record "01.01.23, 10:05:00" "Bob" "Hello");
   (2%nat, record "01.01.23, 10:06:00" "Bob" "How are you")].

(** ** The summary table, lines 72-88, over two runs *)

Module Summary.

(** What a run can raise up to line 88. *)
Inductive Exception : Type :=
| Raised (e : Error)   (* an exception of lines 45-69 *)
| TypeError            (* [len] of a missing message, line 77 *)
| CannotConvertNaN.    (* [round] of the mean of no value, line 77:
                          ValueError, cannot convert float NaN to integer *)

Definition Outcome (A : Type) : Type := (Exception + A)%type.

(** One column of [df_averages].  The three cells are floating-point
    results; each is given by the operands of the operation that computes
    it, of which it is a function: the column [.mean()] is taken of, the
    list [np.mean] is taken of before [round], dividend and divisor of the
    division. *)
Record Column : Type := mkColumn {
  name : option string;
  average_response_time : list (option Z);
  average_message_length : list nat;
  average_messages_per_day : nat * nat
}.

(** [list(map(len, column))] *)
Fixpoint lengths (rows : list RowRT) : Outcome (list nat) :=
  match rows with
  | [] => inr []
  | r :: t =>
      match message (base r) with
      | None => inl TypeError
      | Some text =>
          match lengths t with
          | inl e => inl e
          | inr ls => inr (String.length text :: ls)
          end
      end
  end.

(** The entries of the three dictionaries of lines 75-80 for one sender.
    Only line 77 can raise. *)
Definition column (df : list RowRT) (m : option string) : Outcome Column :=
  match lengths (of_messenger df m) with
  | inl e => inl e
  | inr [] => inl CannotConvertNaN
  | inr (l :: ls) =>
      inr {| name := m;
             average_response_time := map response_time (of_messenger df m);
             average_message_length := l :: ls;
             average_messages_per_day := (message_count df m, day_count df) |}
  end.

(** Lines 75-88: the dictionaries are filled in the iteration order of
    [messengers], and the columns of [df_averages] are their keys in that
    order. *)
Fixpoint df_averages (order : list (option string)) (df : list RowRT) :
  Outcome (list Column) :=
  match order with
  | [] => inr []
  | m :: t =>
      match column df m with
      | inl e => inl e
      | inr c =>
          match df_averages t df with
          | inl e => inl e
          | inr cs => inr (c :: cs)
          end
      end
  end.

(** The iteration orders a run can meet for [set(df["messenger"])]: the
    elements of the set, each once, in any order (the order of a set of
    strings follows their hashes, which change from one process to the
    next). *)
Definition iteration_order (order : list (option string)) (df : list RowRT) : Prop :=
  Permutation order (messengers df).

(** A run of the pipeline up to line 88: the frame of line 69 and the
    table; [order] is the iteration order the run meets. *)
Definition run (order : list (option string)) (lines : list string) :
  Result (list RowRT) * Outcome (list Column) :=
  (main lines,
   match main lines with
   | inl e => inl (Raised e)
   | inr df => df_averages order df
   end).

(** The column of a sender when line 77 does not raise. *)
Definition column_of (df : list RowRT) (m : option string) : Column :=
  {| name := m;
     average_response_time := map response_time (of_messenger df m);
     average_message_length :=
       map (fun r => match message (base r) with
                     | Some text => String.length text
                     | None => 0%nat
                     end) (of_messenger df m);
     average_messages_per_day := (message_count df m, day_count df) |}.

End Summary.

(** The frame of line 69 for [scenario_A]. *)
Definition scenario_A_out : list RowRT :=
  [attach None (record "01.01.23, 10:00:00" "Alice" "Hi");
   attach (Some 300) (record "01.01.23, 10:05:00" "Bob" "Hello");
   attach None (record "01.01.23, 10:06:00" "Bob" "How are you")].

(** The two columns of the summary of [scenario_A]. *)
Definition scenario_A_Alice : Summary.Column :=
  {| Summary.name := Some "Alice";
     Summary.average_response_time := [None];
     Summary.average_message_length := [2%nat];
     Summary.average_messages_per_day := (1%nat, 1%nat) |}.

Definition scenario_A_Bob : Summary.Column :=
  {| Summary.name := Some "Bob";
     Summary.average_response_time := [Some 300; None];
     Summary.average_message_length := [5%nat; 11%nat];
     Summary.average_messages_per_day := (2%nat, 1%nat) |}.

Definition is_none {A} (o : option A) : bool := negb (is_some o).

(** One sender who repeats a message within the same second. *)
Definition one_sender_repeats : list string :=
  [ln "[01.01.23, 10:00:00] Alice: hi";
   ln "[01.01.23, 10:00:00] Alice: yo";
   ln "[01.01.23, 10:00:00] Alice: hi"].

(** * Properties *)

(** ** The matcher on the constructs of the pattern *)

Lemma m_star_cons (p : ascii -> bool) (c : ascii) (t : Re.text) (g : Re.groups)
      (k : Re.text -> Re.groups -> option Re.groups) :
  Re.m (Re.Star (Re.Chr p)) (c :: t) g k =
  match (if p c then Re.m (Re.Star (Re.Chr p)) t g k else None) with
  | Some g' => Some g'
  | None => k (c :: t) g
  end.
Proof.
  simpl. destruct (p c); [|reflexivity].
  replace (List.length t <? S (List.length t))%nat with true; [reflexivity|].
  symmetry. apply Nat.ltb_lt. lia.
Qed.

Lemma consumed_app (a b : Re.text) : Re.consumed (a ++ b) b = a.
Proof.
  unfold Re.consumed. rewrite length_app.
  replace (List.length a + List.length b - List.length b)%nat with (List.length a) by lia.
  rewrite firstn_app, Nat.sub_diag, firstn_all. simpl. apply app_nil_r.
Qed.

Lemma take_drop_while (p : ascii -> bool) (s : Re.text) :
  take_while p s ++ drop_while p s = s.
Proof.
  induction s as [|c t IH]; simpl; [reflexivity|].
  destruct (p c); simpl; [now rewrite IH | reflexivity].
Qed.

(** A starred class followed by something that succeeds on the longest run:
    the greedy choice is final. *)
Lemma m_star_first (p : ascii -> bool) (k : Re.text -> Re.groups -> option Re.groups)
      (s : Re.text) (g x : Re.groups) :
  k (drop_while p s) g = Some x ->
  Re.m (Re.Star (Re.Chr p)) s g k = Some x.
Proof.
  induction s as [|c t IH]; intros H.
  - exact H.
  - rewrite m_star_cons. simpl in H. destruct (p c).
    + now rewrite (IH H).
    + exact H.
Qed.

(** A starred class followed by something that cannot start inside the
    class: there is nothing to backtrack to. *)
Lemma m_star_last (p : ascii -> bool) (k : Re.text -> Re.groups -> option Re.groups)
      (s : Re.text) (g : Re.groups) :
  (forall c t, p c = true -> k (c :: t) g = None) ->
  Re.m (Re.Star (Re.Chr p)) s g k = k (drop_while p s) g.
Proof.
  intros Hk. induction s as [|c t IH].
  - reflexivity.
  - rewrite m_star_cons. cbn [drop_while]. destruct (p c) eqn:E.
    + rewrite IH. destruct (k (drop_while p t) g) eqn:K; [reflexivity|].
      now apply Hk.
    + reflexivity.
Qed.

Lemma has_shape_app (c1 c2 : list (ascii -> bool)) (s : Re.text) :
  has_shape (c1 ++ c2) s = has_shape c1 s && has_shape c2 (skipn (List.length c1) s).
Proof.
  revert s. induction c1 as [|p c1 IH]; intros s; simpl.
  - reflexivity.
  - destruct s as [|c t]; [reflexivity|]. rewrite IH. now rewrite andb_assoc.
Qed.

Lemma fixed_chr (p : ascii -> bool) : fixed (Re.Chr p) [p].
Proof.
  intros s g k. simpl. destruct s as [|c t]; [reflexivity|].
  rewrite andb_true_r. reflexivity.
Qed.

Lemma fixed_cat (r1 r2 : Re.regex) (c1 c2 : list (ascii -> bool)) :
  fixed r1 c1 -> fixed r2 c2 -> fixed (Re.Cat r1 r2) (c1 ++ c2).
Proof.
  intros H1 H2 s g k. simpl. rewrite H1, has_shape_app.
  destruct (has_shape c1 s); simpl; [|reflexivity].
  rewrite H2, length_app, (Nat.add_comm (List.length c1)), <- skipn_skipn.
  reflexivity.
Qed.

Lemma fixed_d2 : fixed d2 [is_digit; is_digit].
Proof.
  intros s g k. unfold d2. simpl.
  destruct s as [|a [|b t]]; simpl; try reflexivity.
  - now destruct (is_digit a).
  - destruct (is_digit a), (is_digit b); reflexivity.
Qed.

Lemma fixed_datetime : fixed datetime_re datetime_shape.
Proof.
  unfold datetime_re, datetime_shape, lit. simpl cat.
  repeat first
    [ apply (fixed_cat d2 _ [_; _] _); [apply fixed_d2|]
    | apply (fixed_cat (Re.Chr _) _ [_] _); [apply fixed_chr|] ].
  apply fixed_d2.
Qed.

Lemma m_cat (r1 r2 : Re.regex) s g k :
  Re.m (Re.Cat r1 r2) s g k = Re.m r1 s g (fun s' g' => Re.m r2 s' g' k).
Proof. reflexivity. Qed.

Lemma m_opt (r : Re.regex) s g k :
  Re.m (Re.Opt r) s g k =
  match Re.m r s g k with
  | Some g' => Some g'
  | None => k s g
  end.
Proof. reflexivity. Qed.

Lemma m_grp (name : string) (r : Re.regex) s g k :
  Re.m (Re.Grp name r) s g k =
  Re.m r s g (fun s' g' => k s' ((name, Re.consumed s s') :: g')).
Proof. reflexivity. Qed.

Lemma m_lit (c : ascii) s g k :
  Re.m (lit c) s g k =
  match s with
  | x :: t => if Ascii.eqb c x then k t g else None
  | [] => None
  end.
Proof. reflexivity. Qed.

Lemma consumed_skipn (n : nat) (s : Re.text) : Re.consumed s (skipn n s) = firstn n s.
Proof.
  rewrite <- (firstn_skipn n s) at 1. apply consumed_app.
Qed.

Lemma consumed_drop_while (p : ascii -> bool) (s : Re.text) :
  Re.consumed s (drop_while p s) = take_while p s.
Proof.
  rewrite <- (take_drop_while p s) at 1. apply consumed_app.
Qed.

(** The prefix either matches in one way or not at all. *)
Lemma m_prefix (s : Re.text) (g : Re.groups) k :
  Re.m prefix_re s g k =
  match split_prefix s with
  | Some (dt, who, rest) => k rest (("messenger", who) :: ("datetime", dt) :: g)
  | None => None
  end.
Proof.
  unfold prefix_re. cbn [cat]. rewrite m_cat, m_lit.
  destruct s as [|c t]; [reflexivity|]. cbn [split_prefix].
  destruct (Ascii.eqb "[" c); [|reflexivity].
  rewrite m_cat, m_grp, fixed_datetime. cbn [andb].
  destruct (has_shape datetime_shape t); [|reflexivity].
  change (List.length datetime_shape) with 18%nat. rewrite consumed_skipn.
  generalize (firstn 18 t) as dt. generalize (skipn 18 t) as t1. clear t c.
  intros t1 dt. rewrite m_cat, m_lit.
  destruct t1 as [|c1 t1]; [reflexivity|].
  destruct (Ascii.eqb "]" c1); cbn [andb].
  2:{ now destruct t1. }
  rewrite m_cat, m_lit. destruct t1 as [|c2 t2]; [reflexivity|].
  destruct (Ascii.eqb " " c2); [|reflexivity].
  rewrite m_cat, m_grp, m_star_last.
  - rewrite consumed_drop_while, m_cat, m_lit.
    destruct (drop_while not_colon t2) as [|c3 t3]; [reflexivity|].
    destruct (Ascii.eqb ":" c3); cbn [andb].
    2:{ now destruct t3. }
    rewrite m_lit. destruct t3 as [|c4 rest]; [reflexivity|].
    now destruct (Ascii.eqb " " c4).
  - intros c t Hc. rewrite m_cat, m_lit.
    unfold not_colon in Hc. rewrite Ascii.eqb_sym.
    now destruct (Ascii.eqb c ":").
Qed.

(** The whole pattern matches at the first position, in one way. *)
Lemma m_pattern (s : Re.text) :
  Re.m pattern s [] (fun _ g => Some g) =
  match split_prefix s with
  | Some (dt, who, rest) =>
      Some [("message", take_while dot rest); ("messenger", who); ("datetime", dt)]
  | None => Some [("message", take_while dot s)]
  end.
Proof.
  assert (K : forall s' g',
             Re.m (Re.Grp "message" (Re.Star (Re.Chr dot))) s' g' (fun _ g => Some g) =
             Some (("message", take_while dot s') :: g')).
  { intros s' g'. rewrite m_grp. apply m_star_first.
    now rewrite consumed_drop_while. }
  unfold pattern. rewrite m_cat, m_opt, m_prefix.
  destruct (split_prefix s) as [[[dt who] rest]|]; now rewrite K.
Qed.

Lemma search_pattern (s : Re.text) :
  Re.search pattern s =
  match split_prefix s with
  | Some (dt, who, rest) =>
      Some [("message", take_while dot rest); ("messenger", who); ("datetime", dt)]
  | None => Some [("message", take_while dot s)]
  end.
Proof.
  destruct s as [|c t]; cbn [Re.search]; rewrite m_pattern;
    now destruct (split_prefix _) as [[[dt who] rest]|].
Qed.

(** The matcher computes what the grammar says, on every line. *)
Lemma classify_parsed_line (line : string) : classify line = ok (parsed_line line).
Proof.
  unfold classify, parsed_line. rewrite search_pattern.
  now destruct (split_prefix _) as [[[dt who] rest]|].
Qed.

(** ** C4: the classifier is total, the timestamp conversion is not *)

(** C4, as the code has it.  On every line the search succeeds and yields
    what the grammar says, with a body in every case.  Without the prefix,
    sender and timestamp are missing and the body is the line up to its
    newline.  With the prefix, the captured timestamp is converted when it
    is a date and a time in the format, and the conversion raises
    [ValueError] when it is not. *)
Theorem C4_classifier_total_conversion_partial :
  forall line : string,
    classify line = ok (parsed_line line) /\
    is_some (body line) = true /\
    if has_prefix line
    then exists d,
        gd_datetime (parsed_line line) = Some d /\
        timestamp line = match Datetime.strptime d with
                         | Some t => ok (Some t)
                         | None => raise ValueError
                         end
    else sender line = None /\
         timestamp line = ok None /\
         body line =
         Some (string_of_list_ascii (take_while dot (list_ascii_of_string line))).
Proof.
  intros line. split; [apply classify_parsed_line|].
  unfold body, has_prefix, sender, timestamp. rewrite classify_parsed_line.
  unfold parsed_line. cbn [bind].
  destruct (split_prefix (list_ascii_of_string line)) as [[[dt who] rest]|]; cbn.
  - split; [reflexivity|]. eexists. split; [reflexivity|]. reflexivity.
  - repeat split.
Qed.

(** C4 as stated fails at [bad_date]: the prefix matches, and the
    conversion of the captured timestamp raises. *)
Lemma C4_invalid_date_raises :
  has_prefix bad_date = true /\
  timestamp bad_date = raise ValueError /\
  main [bad_date] = raise ValueError.
Proof. repeat split; vm_compute; reflexivity. Qed.

(** ** The pipeline as one pass *)

Lemma collect_ok (lines : list string) : collect lines = ok (map parsed_line lines).
Proof.
  unfold collect. induction lines as [|x t IH]; simpl; [reflexivity|].
  now rewrite classify_parsed_line, IH.
Qed.

Lemma boolean_index_map {A} (f : A -> bool) (l : list A) :
  boolean_index l (map f l) = filter f l.
Proof.
  unfold boolean_index. induction l as [|x t IH]; simpl; [reflexivity|].
  destruct (f x); simpl; now rewrite IH.
Qed.

Lemma boolean_index_enum {A} (f : A -> bool) (n : nat) (l : list A) :
  boolean_index (combine (seq n (List.length l)) l) (map f l) =
  filter (fun r => f (snd r)) (combine (seq n (List.length l)) l).
Proof.
  unfold boolean_index. revert n. induction l as [|x t IH]; intros n; simpl; [reflexivity|].
  destruct (f x); simpl; now rewrite IH.
Qed.

Lemma convert_row_kept (n : nat) (x : string) :
  convert_row (n, parsed_line x) =
  match timestamp x with
  | inr _ => ok (n, raw_row x)
  | inl e => raise e
  end.
Proof.
  unfold convert_row, convert, raw_row, timestamp, sender, body. simpl.
  rewrite classify_parsed_line. simpl.
  now destruct (Datetime.to_datetime _).
Qed.

(** Lines 53-62 on the classified lines, as a pass over the lines. *)
Lemma mapM_convert_rows (n : nat) (lines : list string) :
  mapM convert_row
       (filter (fun r => message_ne_empty (snd r))
               (combine (seq n (List.length (map parsed_line lines)))
                        (map parsed_line lines))) =
  if forallb timestamp_ok lines then ok (rows_from n lines) else raise ValueError.
Proof.
  revert n. induction lines as [|x t IH]; intros n; simpl; [reflexivity|].
  unfold timestamp_ok at 1, kept. rewrite classify_parsed_line. simpl.
  destruct (message_ne_empty (parsed_line x)) eqn:K; simpl.
  - rewrite convert_row_kept, IH.
    destruct (timestamp x) as [e|ts] eqn:T; simpl.
    + unfold timestamp in T. rewrite classify_parsed_line in T. simpl in T.
      unfold Datetime.to_datetime in T.
      destruct (gd_datetime (parsed_line x)); [|discriminate].
      destruct (Datetime.strptime s); [discriminate|].
      now inversion T.
    + now destruct (forallb timestamp_ok t).
  - apply IH.
Qed.

Lemma nonempty_messages_eq (data : list GroupDict) :
  data <> [] ->
  nonempty_messages data =
  ok (filter (fun r => message_ne_empty (snd r))
             (combine (seq 0 (List.length data)) data)).
Proof.
  intros H. destruct data as [|g t]; [congruence|].
  unfold nonempty_messages, DataFrame. now rewrite boolean_index_enum.
Qed.

Lemma reconstruct_pass (lines : list string) :
  reconstruct lines =
  match lines with
  | [] => raise KeyError
  | _ :: _ =>
      if forallb timestamp_ok lines
      then ok (fillna_ffill (rows_from 0 lines))
      else raise ValueError
  end.
Proof.
  unfold reconstruct. rewrite collect_ok.
  destruct lines as [|x t]; [reflexivity|].
  remember (x :: t) as lines eqn:E.
  unfold bind at 1, ok at 1, records.
  rewrite nonempty_messages_eq by (subst; discriminate).
  unfold bind at 1, ok at 1. rewrite mapM_convert_rows.
  now destruct (forallb timestamp_ok lines).
Qed.

Lemma reconstruct_ok (lines : list string) :
  lines <> [] ->
  forallb timestamp_ok lines = true ->
  reconstruct lines = ok (fillna_ffill (rows_from 0 lines)).
Proof.
  intros Hne Hok. rewrite reconstruct_pass, Hok. now destruct lines.
Qed.

Lemma reconstruct_ok_inv (lines : list string) (df : Frame Row) :
  reconstruct lines = ok df ->
  lines <> [] /\ forallb timestamp_ok lines = true /\
  df = fillna_ffill (rows_from 0 lines).
Proof.
  rewrite reconstruct_pass. destruct lines as [|x t]; [discriminate|].
  destruct (forallb timestamp_ok (x :: t)); [|discriminate].
  intros H. inversion H. repeat split. discriminate.
Qed.

(** ** Shape of the rows *)

(** Timestamp and sender are captured together or not at all, and the
    message group always takes part. *)
Lemma parsed_line_shape (x : string) :
  (exists d w b, parsed_line x =
                 {| gd_datetime := Some d; gd_messenger := Some w; gd_message := Some b |}) \/
  (exists b, parsed_line x =
             {| gd_datetime := None; gd_messenger := None; gd_message := Some b |}).
Proof.
  unfold parsed_line.
  destruct (split_prefix _) as [[[dt who] rest]|]; [left|right]; eauto.
Qed.

Lemma raw_row_continuation (x : string) :
  has_prefix x = false ->
  raw_row x = {| datetime := None; messenger := None; message := body x;
                 date := None; time := None |}.
Proof.
  unfold has_prefix, raw_row, timestamp, sender, body.
  rewrite classify_parsed_line. simpl.
  destruct (parsed_line_shape x) as [(d & w & b & E)|(b & E)]; rewrite E; simpl.
  - discriminate.
  - reflexivity.
Qed.

Lemma raw_row_prefixed (x : string) :
  has_prefix x = true ->
  exists w, sender x = Some w /\ messenger (raw_row x) = Some w.
Proof.
  unfold has_prefix, raw_row, sender. rewrite classify_parsed_line. simpl.
  destruct (gd_messenger (parsed_line x)) as [w|]; [|discriminate].
  intros _. now exists w.
Qed.

Lemma kept_body (x : string) :
  kept x = true -> exists b, body x = Some b /\ b <> "".
Proof.
  unfold kept, body, message_ne_empty. rewrite classify_parsed_line. simpl.
  destruct (parsed_line_shape x) as [(d & w & b & E)|(b & E)]; rewrite E; simpl;
    intros H; exists b; (split; [reflexivity|]);
    intros ->; discriminate.
Qed.

Lemma orelse_none {A} (a : option A) : orelse a None = a.
Proof. now destruct a. Qed.

(** ** Appending lines *)

Lemma rows_from_app (n : nat) (a b : list string) :
  rows_from n (a ++ b) = rows_from n a ++ rows_from (n + List.length a) b.
Proof.
  revert n. induction a as [|x t IH]; intros n; simpl.
  - now rewrite Nat.add_0_r.
  - rewrite IH, Nat.add_succ_r. simpl. now destruct (kept x).
Qed.

Lemma rows_from_dropped (n : nat) (a : list string) :
  forallb (fun x => negb (kept x)) a = true -> rows_from n a = [].
Proof.
  revert n. induction a as [|x t IH]; intros n H; simpl in *; [reflexivity|].
  apply andb_prop in H as [Hx Ht]. destruct (kept x); [discriminate|]. now apply IH.
Qed.

Lemma ffill_from_app (last : Row) (a b : Frame Row) :
  ffill_from last (a ++ b) = ffill_from last a ++ ffill_from (carry last a) b.
Proof.
  revert last. induction a as [|[i r] t IH]; intros last; simpl; [reflexivity|].
  now rewrite IH.
Qed.

Lemma carry_app (last : Row) (a b : Frame Row) :
  carry last (a ++ b) = carry (carry last a) b.
Proof.
  revert last. induction a as [|[i r] t IH]; intros last; simpl; [reflexivity|].
  apply IH.
Qed.

Lemma forallb_app_true {A} (f : A -> bool) (a b : list A) :
  forallb f (a ++ b) = true <-> forallb f a = true /\ forallb f b = true.
Proof. rewrite forallb_app. apply andb_true_iff. Qed.

Lemma timestamp_ok_dropped (a : list string) :
  forallb (fun x => negb (kept x)) a = true -> forallb timestamp_ok a = true.
Proof.
  induction a as [|x t IH]; simpl; [reflexivity|].
  intros H. apply andb_prop in H as [Hx Ht].
  unfold timestamp_ok at 1. rewrite Hx. simpl. now apply IH.
Qed.

Lemma timestamp_ok_continuation (x : string) : has_prefix x = false -> timestamp_ok x = true.
Proof.
  unfold has_prefix, timestamp_ok, timestamp. rewrite classify_parsed_line. simpl.
  destruct (parsed_line_shape x) as [(d & w & b & E)|(b & E)]; rewrite E; simpl.
  - discriminate.
  - intros _. apply orb_true_r.
Qed.

(** C3, as the code has it.  When the first line with a non-empty body has
    no prefix, reconstruction does not fail on it: the line becomes the
    first record, labelled with its line number, with timestamp and sender
    missing (and [date], [time] with them); an error can only come from a
    timestamp that does not parse further down. *)
Theorem C3_leading_continuation_kept_without_sender :
  forall (pre : list string) (l : string) (post : list string),
    forallb (fun x => negb (kept x)) pre = true ->
    kept l = true ->
    has_prefix l = false ->
    forallb timestamp_ok post = true ->
    exists rest,
      reconstruct (pre ++ l :: post) =
      ok ((List.length pre,
           {| datetime := None; messenger := None; message := body l;
              date := None; time := None |}) :: rest).
Proof.
  intros pre l post Hpre Hk Hp Hpost.
  rewrite reconstruct_ok.
  2:{ now destruct pre. }
  2:{ apply forallb_app_true. split; [now apply timestamp_ok_dropped|].
      simpl. now rewrite timestamp_ok_continuation, Hpost. }
  unfold fillna_ffill. rewrite rows_from_app, rows_from_dropped by assumption.
  simpl. rewrite Hk, (raw_row_continuation l Hp). simpl.
  eexists. unfold fill. simpl. rewrite orelse_none. reflexivity.
Qed.

(** ** Continuation lines *)

Lemma stamp_fill_continuation (last r : Row) :
  stamp r = no_stamp -> stamp (fill last r) = stamp last.
Proof.
  unfold stamp, no_stamp. intros [= H1 H2 H3 H4].
  unfold fill. simpl. now rewrite H1, H2, H3, H4.
Qed.

Lemma carry_continuations (last : Row) (df : Frame Row) :
  Forall (fun r => stamp (snd r) = no_stamp) df ->
  stamp (carry last df) = stamp last.
Proof.
  revert last. induction df as [|[i r] t IH]; intros last H; simpl; [reflexivity|].
  inversion H as [|? ? Hr Ht]; subst. simpl in Hr.
  rewrite IH by assumption. now apply stamp_fill_continuation.
Qed.

Lemma rows_from_continuations (n : nat) (mid : list string) :
  forallb (fun x => negb (kept x && has_prefix x)) mid = true ->
  Forall (fun r => stamp (snd r) = no_stamp) (rows_from n mid).
Proof.
  revert n. induction mid as [|x t IH]; intros n H; simpl in *; [constructor|].
  apply andb_prop in H as [Hx Ht].
  destruct (kept x) eqn:K; [|now apply IH].
  constructor; [|now apply IH].
  simpl in Hx. apply negb_true_iff in Hx.
  simpl. now rewrite (raw_row_continuation x Hx).
Qed.

Lemma fill_continuation (last : Row) (l : string) :
  kept l = true -> has_prefix l = false ->
  fill last (raw_row l) =
  {| datetime := datetime last; messenger := messenger last; message := body l;
     date := date last; time := time last |}.
Proof.
  intros Hk Hp. rewrite (raw_row_continuation l Hp). unfold fill. simpl.
  destruct (kept_body l Hk) as (b & -> & _). reflexivity.
Qed.

Lemma stamp_fill_prefixed (last : Row) (p : string) (t : Z) :
  has_prefix p = true -> timestamp p = ok (Some t) ->
  stamp (fill last (raw_row p)) =
  (Some t, sender p, Datetime.date_of (Some t), Datetime.time_of (Some t)).
Proof.
  intros Hp Ht. destruct (raw_row_prefixed p Hp) as (w & Hs & Hm).
  unfold stamp, fill. rewrite Hm, Hs. unfold raw_row. rewrite Ht. reflexivity.
Qed.

(** C5, as the code has it.  On an input in which the timestamp of every
    line of the frame parses, a continuation line with a non-empty body
    becomes a record of its own, labelled with its line number; it carries
    the timestamp and the sender of the nearest preceding prefixed line
    among those with a non-empty body, and its own body; the records before
    it are those of the lines before it, untouched.  Second part: the
    two-line example.  Third part: when the timestamp of some line of the
    frame does not parse, line 57 raises and there is no record at all. *)
Theorem C5_continuation_takes_last_kept_prefix :
  (forall (pre : list string) (p : string) (mid : list string) (l : string)
          (post : list string) (t : Z),
      forallb timestamp_ok (pre ++ p :: mid ++ l :: post) = true ->
      kept p = true ->
      has_prefix p = true ->
      timestamp p = ok (Some t) ->
      forallb (fun x => negb (kept x && has_prefix x)) mid = true ->
      kept l = true ->
      has_prefix l = false ->
      exists before after,
        reconstruct (pre ++ p :: mid) = ok before /\
        reconstruct (pre ++ p :: mid ++ l :: post) =
        ok (before ++
            (List.length (pre ++ p :: mid),
             {| datetime := Some t; messenger := sender p; message := body l;
                date := Datetime.date_of (Some t);
                time := Datetime.time_of (Some t) |}) :: after)) /\
  reconstruct [ln "[01.01.23, 10:00:00] Alice: Hi"; ln "there"] =
  ok [(0%nat, {| datetime := Some 1672567200; messenger := Some "Alice";
                 message := Some "Hi"; date := Some 19358; time := Some 36000 |});
      (1%nat, {| datetime := Some 1672567200; messenger := Some "Alice";
                 message := Some "there"; date := Some 19358; time := Some 36000 |})] /\
  (forall (lines : list string) (x : string),
      In x lines ->
      kept x = true ->
      timestamp x = raise ValueError ->
      reconstruct lines = raise ValueError).
Proof.
  split; [|split; [vm_compute; reflexivity|]].
  2:{ intros lines x Hx Hk Ht. rewrite reconstruct_pass.
      destruct lines as [|l0 rest]; [contradiction|].
      destruct (forallb timestamp_ok (l0 :: rest)) eqn:F; [|reflexivity].
      rewrite forallb_forall in F. specialize (F x Hx).
      unfold timestamp_ok in F. rewrite Hk, Ht in F. discriminate. }
  intros pre p mid l post t Hok Hkp Hpp Htp Hmid Hkl Hpl.
  replace (pre ++ p :: mid ++ l :: post) with ((pre ++ p :: mid) ++ l :: post) in *
    by (rewrite <- app_assoc; reflexivity).
  pose proof Hok as Hok'. apply forallb_app_true in Hok' as [Hok1 _].
  rewrite (reconstruct_ok (pre ++ p :: mid)) by (assumption || now destruct pre).
  rewrite reconstruct_ok by (assumption || now destruct pre).
  unfold fillna_ffill. rewrite (rows_from_app 0 (pre ++ p :: mid)), ffill_from_app.
  simpl rows_from. rewrite Hkl. cbn [ffill_from].
  do 2 eexists. split; [reflexivity|]. repeat f_equal.
  rewrite fill_continuation by assumption.
  rewrite rows_from_app, carry_app. simpl rows_from. rewrite Hkp. cbn [carry].
  set (c := carry (fill _ (raw_row p)) _).
  assert (Hc : stamp c =
               (Some t, sender p, Datetime.date_of (Some t), Datetime.time_of (Some t))).
  { unfold c. rewrite carry_continuations by now apply rows_from_continuations.
    now apply stamp_fill_prefixed. }
  clearbody c. unfold stamp in Hc. injection Hc as H1 H2 H3 H4.
  now rewrite H1, H2, H3, H4.
Qed.

(** ** Lines 65-68 as one pass *)

Lemma combine_removelast {A} (x : option A) (t : list (option A)) :
  combine t (removelast (x :: t)) = pairs_from x t.
Proof.
  revert x. induction t as [|y t IH]; intros x; [reflexivity|].
  change (removelast (x :: y :: t)) with (x :: removelast (y :: t)).
  cbn [combine pairs_from]. now rewrite IH.
Qed.

Lemma combine_shift1 {A} (col : list (option A)) :
  combine col (shift1 col) = pairs_from None col.
Proof.
  destruct col as [|x t]; [reflexivity|].
  unfold shift1. cbn [combine pairs_from]. now rewrite combine_removelast.
Qed.

Lemma boolean_index_switches (prev : option string) (df : Frame Row) :
  boolean_index df
    (map (fun ab => ne (fst ab) (snd ab))
         (pairs_from prev (map (fun r => messenger (snd r)) df))) =
  switches prev df.
Proof.
  unfold boolean_index. revert prev.
  induction df as [|[i r] t IH]; intros prev; simpl; [reflexivity|].
  destruct (ne (messenger r) prev); simpl; now rewrite IH.
Qed.

Lemma sender_change_switches (df : Frame Row) :
  boolean_index df (sender_change df) = switches None df.
Proof.
  unfold sender_change, zip_with. rewrite combine_shift1.
  apply boolean_index_switches.
Qed.

Lemma zip_gaps (prev : option Z) (df : Frame Row) :
  map (fun ab => (fst (fst ab), attach (snd ab) (snd (fst ab))))
      (combine df (map (fun ab => sub (fst ab) (snd ab))
                       (pairs_from prev (map (fun r => datetime (snd r)) df)))) =
  gaps prev df.
Proof.
  revert prev. induction df as [|[i r] t IH]; intros prev; simpl; [reflexivity|].
  now rewrite IH.
Qed.

Lemma response_times_pass (limit : Z) (df : Frame Row) :
  response_times limit df =
  filter (le_limit (Datetime.hours limit)) (gaps None (switches None df)).
Proof.
  unfold response_times. rewrite boolean_index_map, sender_change_switches.
  unfold diff, zip_with. rewrite combine_shift1. now rewrite zip_gaps.
Qed.

(** ** Where the rows of the merge come from *)

Lemma merge_groups_In (left : list Row) (right : list RowRT) (r : RowRT) :
  In r (merge_groups left right) ->
  (In (base r) left \/ In r right) /\
  (response_time r = None \/
   exists r', In r' right /\ response_time r = response_time r').
Proof.
  unfold merge_groups. intros H. apply in_flat_map in H as (k & _ & H).
  destruct (filter (fun r0 => Row_eqb k (base r0)) right) as [|r0 rs] eqn:R.
  - assert (H' : In r (map (attach None) (filter (Row_eqb k) left))).
    { now destruct (filter (Row_eqb k) left). }
    apply in_map_iff in H' as (l & <- & Hl). apply filter_In in Hl as [Hl _].
    simpl. auto.
  - destruct (filter (Row_eqb k) left) as [|l0 ls] eqn:L.
    + assert (Hr : In r right).
      { eapply proj1. apply filter_In. rewrite R. exact H. }
      split; [now right|]. right. now exists r.
    + apply in_flat_map in H as (l & Hl & H).
      apply in_map_iff in H as (r' & <- & Hr').
      rewrite <- L in Hl. apply filter_In in Hl as [Hl _].
      rewrite <- R in Hr'. apply filter_In in Hr' as [Hr' _].
      simpl. split; [now left|]. right. now exists r'.
Qed.

Lemma merge_In (left : list Row) (right : list RowRT) (r : RowRT) :
  In r (merge left right) ->
  (In (base r) left \/ In r right) /\
  (response_time r = None \/
   exists r', In r' right /\ response_time r = response_time r').
Proof.
  unfold merge. destruct right as [|q right'].
  - intros H. apply in_map_iff in H as (l & <- & Hl). simpl. auto.
  - destruct left as [|l left'].
    + intros H. split; [now right|]. right. now exists r.
    + apply merge_groups_In.
Qed.

Lemma switches_In (prev : option string) (df : Frame Row) (x : nat * Row) :
  In x (switches prev df) -> In x df.
Proof.
  revert prev. induction df as [|[i r] t IH]; intros prev; simpl; [tauto|].
  destruct (ne (messenger r) prev); simpl; intros H.
  - destruct H as [H|H]; [now left|right; eauto].
  - right; eauto.
Qed.

Lemma gaps_In (prev : option Z) (df : Frame Row) (i : nat) (r : RowRT) :
  In (i, r) (gaps prev df) -> In (i, base r) df.
Proof.
  revert prev. induction df as [|[j q] t IH]; intros prev; simpl; [tauto|].
  intros [H|H].
  - inversion H; subst. now left.
  - right; eauto.
Qed.

Lemma response_times_In (limit : Z) (df : Frame Row) (i : nat) (r : RowRT) :
  In (i, r) (response_times limit df) -> In (i, base r) (switches None df).
Proof.
  rewrite response_times_pass. intros H. apply filter_In in H as [H _].
  now apply gaps_In in H.
Qed.

(** Every row of the merged frame is a row of [df], up to [response_time]. *)
Lemma estimate_In (limit : Z) (df : Frame Row) (r : RowRT) :
  In r (estimate limit df) -> In (base r) (map snd df).
Proof.
  unfold estimate. intros H. apply merge_In in H as [[H|H] _]; [exact H|].
  apply in_map_iff in H as ([i r'] & <- & H). simpl.
  apply response_times_In, switches_In in H.
  apply in_map_iff. now exists (i, base r').
Qed.

(** ** Bodies are not empty *)

Lemma rows_from_nonempty (n : nat) (lines : list string) :
  Forall (fun r => nonempty_body (snd r)) (rows_from n lines).
Proof.
  revert n. induction lines as [|x t IH]; intros n; simpl; [constructor|].
  destruct (kept x) eqn:K; [|apply IH].
  constructor; [|apply IH]. simpl. unfold nonempty_body, raw_row. simpl.
  now apply kept_body.
Qed.

Lemma ffill_from_nonempty (last : Row) (df : Frame Row) :
  Forall (fun r => nonempty_body (snd r)) df ->
  Forall (fun r => nonempty_body (snd r)) (ffill_from last df).
Proof.
  revert last. induction df as [|[i r] t IH]; intros last H; simpl; [constructor|].
  inversion H as [|? ? Hr Ht]; subst. constructor; [|now apply IH].
  simpl in *. destruct Hr as (b & Hb & Hne). exists b. simpl. now rewrite Hb.
Qed.

(** ** Labels play no role after the reconstruction *)

Lemma rows_from_snd (n m : nat) (lines : list string) :
  map snd (rows_from n lines) = map snd (rows_from m lines).
Proof.
  revert n m. induction lines as [|x t IH]; intros n m; simpl; [reflexivity|].
  destruct (kept x); simpl; [f_equal|]; apply IH.
Qed.

Lemma ffill_from_snd (last : Row) (df df' : Frame Row) :
  map snd df = map snd df' ->
  map snd (ffill_from last df) = map snd (ffill_from last df').
Proof.
  revert last df'. induction df as [|[i r] t IH]; intros last [|[j q] t'] H;
    simpl in *; try discriminate; [reflexivity|].
  injection H as -> H. f_equal. now apply IH.
Qed.

Lemma ffill_from_fst (last : Row) (df : Frame Row) :
  map fst (ffill_from last df) = map fst df.
Proof.
  revert last. induction df as [|[i r] t IH]; intros last; simpl; [reflexivity|].
  now rewrite IH.
Qed.

Lemma switches_snd (prev : option string) (df df' : Frame Row) :
  map snd df = map snd df' ->
  map snd (switches prev df) = map snd (switches prev df').
Proof.
  revert prev df'. induction df as [|[i r] t IH]; intros prev [|[j q] t'] H;
    simpl in *; try discriminate; [reflexivity|].
  injection H as -> H. destruct (ne (messenger q) prev); simpl; [f_equal|]; now apply IH.
Qed.

Lemma gaps_snd (prev : option Z) (df df' : Frame Row) :
  map snd df = map snd df' ->
  map snd (gaps prev df) = map snd (gaps prev df').
Proof.
  revert prev df'. induction df as [|[i r] t IH]; intros prev [|[j q] t'] H;
    simpl in *; try discriminate; [reflexivity|].
  injection H as -> H. f_equal. now apply IH.
Qed.

Lemma filter_le_limit_snd (limit : Z) (df df' : Frame RowRT) :
  map snd df = map snd df' ->
  map snd (filter (le_limit limit) df) = map snd (filter (le_limit limit) df').
Proof.
  revert df'. induction df as [|[i r] t IH]; intros [|[j q] t'] H;
    simpl in *; try discriminate; [reflexivity|].
  injection H as -> H.
  replace (le_limit limit (i, q)) with (le_limit limit (j, q)) by reflexivity.
  destruct (le_limit limit (j, q)); simpl; [f_equal|]; now apply IH.
Qed.

Lemma estimate_snd (limit : Z) (df df' : Frame Row) :
  map snd df = map snd df' -> estimate limit df = estimate limit df'.
Proof.
  intros H. unfold estimate. rewrite H. f_equal.
  rewrite !response_times_pass.
  now apply filter_le_limit_snd, gaps_snd, switches_snd.
Qed.

(** The labels of the frame are line numbers of lines that are kept. *)
Lemma rows_from_label (n : nat) (lines : list string) (i : nat) :
  In i (map fst (rows_from n lines)) ->
  (n <= i)%nat /\ exists x, nth_error lines (i - n) = Some x /\ kept x = true.
Proof.
  revert n. induction lines as [|x t IH]; intros n; simpl; [tauto|].
  intros H.
  assert (Ht : In i (map fst (rows_from (S n) t)) ->
               (n <= i)%nat /\
               exists y, nth_error (x :: t) (i - n) = Some y /\ kept y = true).
  { intros H'. apply IH in H' as (Hle & y & Hy & Hk). split; [lia|].
    exists y. split; [|exact Hk].
    replace (i - n)%nat with (S (i - S n)) by lia. exact Hy. }
  destruct (kept x) eqn:K; [|now apply Ht].
  destruct H as [H|H]; [|now apply Ht].
  simpl in H. subst i. split; [lia|]. exists x. now rewrite Nat.sub_diag.
Qed.

Lemma kept_empty_body (l : string) : body l = Some "" -> kept l = false.
Proof.
  unfold body, kept, message_ne_empty. rewrite classify_parsed_line. simpl.
  now intros ->.
Qed.

Lemma main_pass (lines : list string) :
  main lines = fmap (estimate response_timelimit) (reconstruct lines).
Proof. reflexivity. Qed.

(** C6.  Every record of the output has a non-empty body; and a line whose
    body is empty leaves no record (no row carries its line number) and no
    trace: the records, and the output of the estimator, are those of the
    input without that line. *)
Theorem C6_bodies_nonempty_and_empty_lines_dropped :
  (forall (lines : list string) (out : list RowRT),
      main lines = ok out ->
      Forall (fun r => nonempty_body (base r)) out) /\
  (forall (pre : list string) (l : string) (post : list string),
      body l = Some "" ->
      (forall df, reconstruct (pre ++ l :: post) = ok df ->
                  ~ In (List.length pre) (map fst df)) /\
      (pre ++ post <> [] ->
       fmap (map snd) (reconstruct (pre ++ l :: post)) =
       fmap (map snd) (reconstruct (pre ++ post)) /\
       main (pre ++ l :: post) = main (pre ++ post))).
Proof.
  split.
  - intros lines out H. rewrite main_pass in H.
    destruct (reconstruct lines) as [e|df] eqn:R; [discriminate|].
    apply reconstruct_ok_inv in R as (_ & _ & ->).
    injection H as <-. apply Forall_forall. intros r Hr.
    apply estimate_In in Hr. apply in_map_iff in Hr as (x & Hx & Hin).
    rewrite <- Hx.
    pose proof (ffill_from_nonempty all_missing _ (rows_from_nonempty 0 lines)) as F.
    rewrite Forall_forall in F. now apply F.
  - intros pre l post Hb. apply kept_empty_body in Hb as Hk. split.
    + intros df R. apply reconstruct_ok_inv in R as (_ & _ & ->).
      unfold fillna_ffill. rewrite ffill_from_fst. intros Hin.
      apply rows_from_label in Hin as (_ & x & Hx & Hkx).
      rewrite Nat.sub_0_r, nth_error_app2, Nat.sub_diag in Hx by lia.
      simpl in Hx. injection Hx as <-. congruence.
    + intros Hne.
      assert (Hsnd : map snd (fillna_ffill (rows_from 0 (pre ++ l :: post))) =
                     map snd (fillna_ffill (rows_from 0 (pre ++ post)))).
      { unfold fillna_ffill. apply ffill_from_snd.
        rewrite !rows_from_app, !map_app. simpl. rewrite Hk. f_equal.
        apply rows_from_snd. }
      assert (Hts : forallb timestamp_ok (pre ++ l :: post) =
                    forallb timestamp_ok (pre ++ post)).
      { rewrite !forallb_app. simpl. unfold timestamp_ok at 2. now rewrite Hk. }
      rewrite !main_pass, !reconstruct_pass, Hts.
      destruct (pre ++ post) as [|y ys] eqn:E; [congruence|].
      destruct (pre ++ l :: post) as [|z zs] eqn:E'; [now destruct pre|].
      rewrite <- E, <- E' in *.
      destruct (forallb timestamp_ok (pre ++ post)); [|split; reflexivity].
      unfold fmap. simpl. split; [now rewrite Hsnd|].
      f_equal. now apply estimate_snd.
Qed.

(** ** Timestamps in line order *)

Lemma nondecreasing_sorted (l : list Z) :
  nondecreasing l = true -> StronglySorted Z.le l.
Proof.
  intros H. apply Sorted_StronglySorted; [exact Z.le_trans|].
  induction l as [|x t IH]; [constructor|].
  destruct t as [|y t'].
  - repeat constructor.
  - simpl in H. apply andb_prop in H as [Hxy Ht].
    constructor; [now apply IH|]. constructor. now apply Z.leb_le.
Qed.

(** After the forward fill the [datetime] column is ordered, and bounded
    below by the value carried in. *)
Lemma ffill_from_sorted (lines : list string) (n : nat) (last : Row) :
  StronglySorted Z.le (timestamps lines) ->
  (forall y, datetime last = Some y -> Forall (Z.le y) (timestamps lines)) ->
  let col := map (fun r => datetime (snd r)) (ffill_from last (rows_from n lines)) in
  StronglySorted le_opt col /\ Forall (le_opt (datetime last)) col.
Proof.
  revert n last. induction lines as [|x t IH]; intros n last Hs Hb; simpl.
  { split; constructor. }
  assert (Hst : StronglySorted Z.le (timestamps t)).
  { unfold timestamps in *. simpl in Hs.
    destruct (timestamp x) as [e|[tx|]]; simpl in Hs; try exact Hs.
    now inversion Hs. }
  assert (Hbt : forall y, datetime last = Some y -> Forall (Z.le y) (timestamps t)).
  { intros y Hy. specialize (Hb y Hy). unfold timestamps in *. simpl in Hb.
    destruct (timestamp x) as [e|[tx|]]; simpl in Hb; try exact Hb.
    now inversion Hb. }
  destruct (kept x) eqn:K; [|now apply IH].
  simpl. set (r' := fill last (raw_row x)).
  assert (Hr' : le_opt (datetime last) (datetime r') /\
                (forall y, datetime r' = Some y -> Forall (Z.le y) (timestamps t)) /\
                (datetime r' = None -> datetime last = None)).
  { unfold r', fill. simpl.
    unfold timestamps in Hs, Hb. simpl in Hs, Hb.
    destruct (timestamp x) as [e|[tx|]]; simpl in *.
    - repeat split; auto. intros a b Ha Hb'. rewrite Ha in Hb'. injection Hb' as ->. lia.
    - repeat split.
      + intros a b Ha [= <-]. specialize (Hb a Ha). now inversion Hb.
      + intros y [= <-]. now inversion Hs.
      + discriminate.
    - repeat split; auto. intros a b Ha Hb'. rewrite Ha in Hb'. injection Hb' as ->. lia. }
  destruct Hr' as (Hle & Hb' & Hnone).
  destruct (IH (S n) r' Hst Hb') as [IH1 IH2].
  split.
  - constructor; assumption.
  - constructor; [exact Hle|].
    eapply Forall_impl; [|exact IH2]. intros e He a b Ha Hb''.
    destruct (datetime r') as [w|] eqn:W.
    + specialize (Hle a w Ha eq_refl). specialize (He w b eq_refl Hb''). lia.
    + rewrite Hnone in Ha by reflexivity. discriminate.
Qed.

Lemma switches_sorted (prev : option string) (df : Frame Row) :
  StronglySorted le_opt (map (fun r => datetime (snd r)) df) ->
  StronglySorted le_opt (map (fun r => datetime (snd r)) (switches prev df)).
Proof.
  revert prev. induction df as [|[i r] t IH]; intros prev H; simpl; [constructor|].
  simpl in H. inversion H as [|? ? Ht Hr]; subst.
  destruct (ne (messenger r) prev); [|now apply IH].
  simpl. constructor; [now apply IH|].
  rewrite Forall_forall in *. intros e He. apply Hr.
  apply in_map_iff in He as (x & <- & Hx).
  apply (in_map (fun r0 : nat * Row => datetime (snd r0))).
  now apply switches_In in Hx.
Qed.

Lemma gaps_nonneg (prev : option Z) (df : Frame Row) (i : nat) (r : RowRT) (d : Z) :
  StronglySorted le_opt (map (fun r => datetime (snd r)) df) ->
  Forall (le_opt prev) (map (fun r => datetime (snd r)) df) ->
  In (i, r) (gaps prev df) ->
  response_time r = Some d ->
  0 <= d.
Proof.
  revert prev. induction df as [|[j q] t IH]; intros prev Hs Hb Hin Hd; simpl in *.
  { contradiction. }
  inversion Hs as [|? ? Ht Hq]; subst. inversion Hb as [|? ? Hp Hb']; subst.
  destruct Hin as [Hin|Hin].
  - injection Hin as <- <-. simpl in Hd. unfold sub in Hd.
    destruct (datetime q) as [a|] eqn:A; [|discriminate].
    destruct prev as [b|]; [|discriminate].
    injection Hd as <-. specialize (Hp b a eq_refl eq_refl). lia.
  - now apply (IH (datetime q)).
Qed.

(** C9.  When the timestamps of the input do not decrease in line order,
    every response time of the output is at least the zero duration. *)
Theorem C9_response_time_nonnegative :
  forall (lines : list string) (out : list RowRT) (r : RowRT) (d : Z),
    nondecreasing (timestamps lines) = true ->
    main lines = ok out ->
    In r out ->
    response_time r = Some d ->
    0 <= d.
Proof.
  intros lines out r d Hnd Hmain Hin Hd.
  rewrite main_pass in Hmain.
  destruct (reconstruct lines) as [e|df] eqn:R; [discriminate|].
  apply reconstruct_ok_inv in R as (_ & _ & ->). injection Hmain as <-.
  unfold estimate in Hin. apply merge_In in Hin as [_ [Hn|(r' & Hr' & Heq)]].
  { congruence. }
  rewrite Heq in Hd. apply in_map_iff in Hr' as ([i q] & Hq & Hr'). simpl in Hq. subst q.
  rewrite response_times_pass in Hr'. apply filter_In in Hr' as [Hr' _].
  assert (Hs : StronglySorted le_opt
                 (map (fun r => datetime (snd r))
                      (fillna_ffill (rows_from 0 lines)))).
  { apply (ffill_from_sorted lines 0 all_missing).
    - now apply nondecreasing_sorted.
    - discriminate. }
  apply (gaps_nonneg None _ i r' d (switches_sorted None _ Hs)); try assumption.
  apply Forall_forall. intros e _ a b Ha. discriminate.
Qed.

(** ** Continuation records and sender switches *)

Lemma switches_app (prev : option string) (a b : Frame Row) :
  switches prev (a ++ b) = switches prev a ++ switches (last_sender prev a) b.
Proof.
  revert prev. induction a as [|[i r] t IH]; intros prev; simpl; [reflexivity|].
  rewrite IH. now destruct (ne (messenger r) prev).
Qed.

Lemma last_sender_snoc (prev : option string) (a : Frame Row) (x : nat * Row) :
  last_sender prev (a ++ [x]) = messenger (snd x).
Proof.
  revert prev. induction a as [|[i r] t IH]; intros prev; simpl.
  - now destruct x.
  - apply IH.
Qed.

Lemma ne_same (w : string) : ne (Some w) (Some w) = false.
Proof. simpl. now rewrite String.eqb_refl. Qed.

Lemma first_kept_before (pre : list string) (l : string) (post : list string) :
  first_kept_has_prefix (pre ++ l :: post) = true ->
  kept l = true ->
  has_prefix l = false ->
  first_kept_has_prefix pre = true.
Proof.
  unfold first_kept_has_prefix. intros H Hk Hl.
  induction pre as [|x t IH]; simpl in *.
  - rewrite Hk in H. congruence.
  - destruct (kept x); [exact H|now apply IH].
Qed.

Lemma rows_from_first_kept (n : nat) (lines : list string) :
  first_kept_has_prefix lines = true ->
  exists i r rest,
    rows_from n lines = (i, r) :: rest /\ is_some (messenger r) = true.
Proof.
  unfold first_kept_has_prefix. revert n.
  induction lines as [|x t IH]; intros n H; simpl in *; [discriminate|].
  destruct (kept x); [|now apply IH].
  exists n, (raw_row x), (rows_from (S n) t). split; [reflexivity|].
  destruct (raw_row_prefixed x H) as (w & _ & ->). reflexivity.
Qed.

Lemma is_some_orelse {A} (a b : option A) :
  is_some b = true -> is_some (orelse a b) = true.
Proof. now destruct a. Qed.

(** Once a sender is known, every later row has one. *)
Lemma carry_sender (last : Row) (df : Frame Row) :
  is_some (messenger last) = true -> is_some (messenger (carry last df)) = true.
Proof.
  revert last. induction df as [|[i r] t IH]; intros last H; simpl; [exact H|].
  apply IH. unfold fill. simpl. now apply is_some_orelse.
Qed.

Lemma carry_first_sender (df : Frame Row) (i : nat) (r : Row) (rest : Frame Row) :
  df = (i, r) :: rest -> is_some (messenger r) = true ->
  is_some (messenger (carry all_missing df)) = true.
Proof.
  intros -> H. simpl. apply carry_sender. unfold fill. simpl.
  now destruct (messenger r).
Qed.

Lemma carry_snoc (last : Row) (a : Frame Row) (x : nat * Row) :
  ffill_from last (a ++ [x]) =
  ffill_from last a ++ [(fst x, carry last (a ++ [x]))].
Proof.
  rewrite ffill_from_app, carry_app. now destruct x.
Qed.

Lemma rows_from_label_lt (n : nat) (lines : list string) (i : nat) :
  In i (map fst (rows_from n lines)) -> (n <= i < n + List.length lines)%nat.
Proof.
  intros H. apply rows_from_label in H as (Hle & x & Hx & _).
  assert (i - n < List.length lines)%nat by (apply nth_error_Some; congruence).
  lia.
Qed.

(** C10, as the code has it.  When the first line with a non-empty body has
    the prefix, the record of a continuation line (with a non-empty body)
    has the sender of the record just before it, so the comparison of line
    65 does not select it: its label is not in the sender-change
    subsequence, nor among the rows that get a response time there. *)
Theorem C10_continuation_is_no_sender_switch :
  forall (pre : list string) (l : string) (post : list string) (df : Frame Row),
    reconstruct (pre ++ l :: post) = ok df ->
    first_kept_has_prefix (pre ++ l :: post) = true ->
    kept l = true ->
    has_prefix l = false ->
    exists before prev r after,
      df = before ++ prev :: (List.length pre, r) :: after /\
      messenger r = messenger (snd prev) /\
      messenger r <> None /\
      ~ In (List.length pre) (map fst (boolean_index df (sender_change df))) /\
      (forall limit, ~ In (List.length pre) (map fst (response_times limit df))).
Proof.
  intros pre l post df R Hfirst Hk Hp.
  apply reconstruct_ok_inv in R as (_ & _ & ->).
  apply first_kept_before in Hfirst; try assumption.
  destruct (rows_from_first_kept 0 pre Hfirst) as (i1 & r1 & rest1 & E1 & S1).
  pose proof (carry_first_sender _ _ _ _ E1 S1) as Hc.
  assert (Hne : rows_from 0 pre <> []) by (rewrite E1; discriminate).
  destruct (exists_last Hne) as (a & x & Ea).
  unfold fillna_ffill. rewrite rows_from_app. simpl rows_from. rewrite Hk.
  rewrite ffill_from_app. cbn [ffill_from]. rewrite fill_continuation by assumption.
  set (c := carry all_missing (rows_from 0 pre)) in *.
  assert (Epre : ffill_from all_missing (rows_from 0 pre) =
                 ffill_from all_missing a ++ [(fst x, c)]).
  { unfold c. rewrite Ea. apply carry_snoc. }
  clearbody c.
  set (r := {| datetime := datetime c; messenger := messenger c; message := body l;
               date := date c; time := time c |}).
  set (Fpost := ffill_from r (rows_from (S (List.length pre)) post)).
  assert (W : exists w, messenger c = Some w /\ messenger r = Some w).
  { unfold r. cbn [messenger]. destruct (messenger c) as [w|]; [|discriminate].
    now exists w. }
  destruct W as (w & W & Wr).
  assert (Hnot : ~ In (List.length pre)
                      (map fst (switches None
                                  (ffill_from all_missing (rows_from 0 pre) ++
                                   (List.length pre, r) :: Fpost)))).
  { rewrite switches_app. rewrite Epre at 2. rewrite last_sender_snoc.
    cbn [switches snd]. rewrite Wr, W, ne_same.
    rewrite map_app. intros Hin. apply in_app_or in Hin as [Hin|Hin].
    - apply in_map_iff in Hin as (y & Hy & Hin). apply switches_In in Hin.
      apply (in_map fst) in Hin. rewrite Hy, ffill_from_fst in Hin.
      apply rows_from_label_lt in Hin. lia.
    - apply in_map_iff in Hin as (y & Hy & Hin). apply switches_In in Hin.
      apply (in_map fst) in Hin. unfold Fpost in Hin.
      rewrite Hy, ffill_from_fst in Hin.
      apply rows_from_label_lt in Hin. lia. }
  exists (ffill_from all_missing a), (fst x, c), r, Fpost.
  split; [|split; [|split; [|split]]].
  - rewrite Epre, <- app_assoc. reflexivity.
  - cbn [snd]. congruence.
  - congruence.
  - rewrite sender_change_switches. exact Hnot.
  - intros limit Hin. apply Hnot.
    apply in_map_iff in Hin as ([j q] & Hj & Hin). simpl in Hj. subst j.
    apply response_times_In in Hin.
    apply in_map_iff. now exists (List.length pre, base q).
Qed.

(** ** The scenarios of the specification *)

Example scenario_A_main :
  main scenario_A =
  ok [attach None (record "01.01.23, 10:00:00" "Alice" "Hi");
      attach (Some 300) (record "01.01.23, 10:05:00" "Bob" "Hello");
      attach None (record "01.01.23, 10:06:00" "Bob" "How are you")].
Proof. vm_compute. reflexivity. Qed.

Example scenario_C_main :
  main scenario_C =
  ok [attach None (record "01.01.23, 10:00:00" "Alice" "Hi");
      attach None (record "01.01.23, 17:00:00" "Bob" "Hello")].
Proof. vm_compute. reflexivity. Qed.

Example empty_input_main : main [] = raise KeyError.
Proof. reflexivity. Qed.

(** ** The merge when all records differ *)

Lemma opt_eqb_eq {A} (eqb : A -> A -> bool) (a b : option A) :
  (forall x y, eqb x y = true <-> x = y) ->
  opt_eqb eqb a b = true <-> a = b.
Proof.
  intros H. destruct a as [x|], b as [y|]; simpl; try (split; congruence).
  rewrite H. split; congruence.
Qed.

Lemma Row_eqb_eq (a b : Row) : Row_eqb a b = true <-> a = b.
Proof.
  unfold Row_eqb. rewrite !andb_true_iff.
  rewrite !(opt_eqb_eq Z.eqb) by exact Z.eqb_eq.
  rewrite !(opt_eqb_eq String.eqb) by exact String.eqb_eq.
  destruct a, b; simpl. split.
  - intros [[[[-> ->] ->] ->] ->]. reflexivity.
  - intros [= -> -> -> -> ->]. repeat split.
Qed.

Lemma Row_eqb_refl (a : Row) : Row_eqb a a = true.
Proof. now apply Row_eqb_eq. Qed.

Lemma Row_eqb_neq (a b : Row) : a <> b -> Row_eqb a b = false.
Proof.
  intros H. destruct (Row_eqb a b) eqn:E; [|reflexivity].
  now apply Row_eqb_eq in E.
Qed.

Lemma existsb_Row_eqb (k : Row) (seen : list Row) :
  existsb (Row_eqb k) seen = true <-> In k seen.
Proof.
  rewrite existsb_exists. split.
  - intros (x & Hx & E). apply Row_eqb_eq in E. now subst.
  - intros H. exists k. split; [exact H|apply Row_eqb_refl].
Qed.

Lemma factorize_seen (seen keys : list Row) :
  incl keys seen -> factorize seen keys = [].
Proof.
  induction keys as [|k t IH]; intros H; simpl; [reflexivity|].
  assert (Hk : existsb (Row_eqb k) seen = true).
  { apply existsb_Row_eqb, H. now left. }
  rewrite Hk. apply IH. intros x Hx. apply H. now right.
Qed.

(** New keys come out once, in order. *)
Lemma factorize_distinct (seen l l' : list Row) :
  NoDup l ->
  (forall x, In x l -> ~ In x seen) ->
  (forall y, In y l' -> In y seen \/ In y l) ->
  factorize seen (l ++ l') = l.
Proof.
  revert seen. induction l as [|k t IH]; intros seen Hnd Hnew Hold; simpl.
  - apply factorize_seen. intros y Hy. destruct (Hold y Hy) as [H|[]]. exact H.
  - inversion Hnd as [|? ? Hk Ht]; subst.
    destruct (existsb (Row_eqb k) seen) eqn:E.
    + apply existsb_Row_eqb in E. exfalso. apply (Hnew k); [now left|exact E].
    + f_equal. apply IH; [exact Ht| |].
      * intros x Hx [Hin|Hin]; [subst; contradiction|].
        apply (Hnew x); [now right|exact Hin].
      * intros y Hy. destruct (Hold y Hy) as [H|[H|H]].
        -- left. now right.
        -- left. now left.
        -- now right.
Qed.

Lemma filter_key_absent (k : Row) (l : list Row) :
  ~ In k l -> filter (Row_eqb k) l = [].
Proof.
  induction l as [|x t IH]; intros H; simpl; [reflexivity|].
  rewrite Row_eqb_neq.
  - apply IH. intros Hin. apply H. now right.
  - intros ->. apply H. now left.
Qed.

Lemma filter_key_once (k : Row) (l : list Row) :
  NoDup l -> In k l -> filter (Row_eqb k) l = [k].
Proof.
  induction l as [|x t IH]; intros Hnd Hin; simpl; [contradiction|].
  inversion Hnd as [|? ? Hx Ht]; subst.
  destruct Hin as [->|Hin].
  - rewrite Row_eqb_refl. f_equal. now apply filter_key_absent.
  - rewrite Row_eqb_neq; [now apply IH|].
    intros ->. contradiction.
Qed.

Lemma filter_base_once (k : Row) (right : list RowRT) :
  NoDup (map base right) ->
  filter (fun q => Row_eqb k (base q)) right =
  match find (fun q => Row_eqb k (base q)) right with
  | Some q => [q]
  | None => []
  end.
Proof.
  induction right as [|q t IH]; intros Hnd; simpl; [reflexivity|].
  inversion Hnd as [|? ? Hq Ht]; subst.
  destruct (Row_eqb k (base q)) eqn:E; [|now apply IH].
  f_equal. apply Row_eqb_eq in E. subst k.
  clear -Hq. induction t as [|x t IH]; simpl; [reflexivity|].
  rewrite Row_eqb_neq.
  - apply IH. intros H. apply Hq. now right.
  - intros E. apply Hq. left. now symmetry.
Qed.

(** On distinct keys the outer merge is a left join that keeps the order of
    the left frame. *)
Lemma merge_groups_distinct (left : list Row) (right : list RowRT) :
  NoDup left ->
  NoDup (map base right) ->
  incl (map base right) left ->
  merge_groups left right = map (fun k => attach (response_of_key right k) k) left.
Proof.
  intros Hl Hr Hincl. unfold merge_groups.
  rewrite factorize_distinct; try assumption.
  2:{ intros x _ []. }
  2:{ intros y Hy. right. now apply Hincl. }
  assert (G : forall l, incl l left ->
            flat_map
              (fun k =>
                 match filter (Row_eqb k) left,
                       filter (fun r => Row_eqb k (base r)) right with
                 | _, [] => map (attach None) (filter (Row_eqb k) left)
                 | [], _ => filter (fun r => Row_eqb k (base r)) right
                 | _, _ =>
                     flat_map (fun l0 => map (fun r => attach (response_time r) l0)
                                             (filter (fun r => Row_eqb k (base r)) right))
                              (filter (Row_eqb k) left)
                 end) l =
            map (fun k => attach (response_of_key right k) k) l).
  { induction l as [|k t IH]; intros Hin; simpl; [reflexivity|].
    rewrite IH by (intros x Hx; apply Hin; now right).
    rewrite filter_key_once by (try assumption; apply Hin; now left).
    rewrite filter_base_once by assumption. unfold response_of_key.
    now destruct (find (fun q => Row_eqb k (base q)) right). }
  apply G. apply incl_refl.
Qed.

Lemma merge_distinct (left : list Row) (right : list RowRT) :
  NoDup left ->
  NoDup (map base right) ->
  incl (map base right) left ->
  merge left right = map (fun k => attach (response_of_key right k) k) left.
Proof.
  intros Hl Hr Hincl. unfold merge. destruct right as [|q right'].
  - reflexivity.
  - destruct left as [|l left'].
    + exfalso. apply (Hincl (base q)). now left.
    + now apply merge_groups_distinct.
Qed.

Lemma switches_distinct (prev : option string) (df : Frame Row) :
  NoDup (map snd df) -> NoDup (map snd (switches prev df)).
Proof.
  revert prev. induction df as [|[i r] t IH]; intros prev H; simpl; [constructor|].
  inversion H as [|? ? Hr Ht]; subst.
  destruct (ne (messenger r) prev); [|now apply IH].
  simpl. constructor; [|now apply IH].
  intros Hin. apply Hr. apply in_map_iff in Hin as (x & Hx & Hin).
  apply switches_In in Hin. apply in_map_iff. now exists x.
Qed.

Lemma gaps_base (prev : option Z) (df : Frame Row) :
  map (fun x => base (snd x)) (gaps prev df) = map snd df.
Proof.
  revert prev. induction df as [|[i r] t IH]; intros prev; simpl; [reflexivity|].
  now rewrite IH.
Qed.

(** Line 68 keeps the keys of [df_response_times] distinct. *)
Lemma le_limit_distinct (limit : Z) (g : Frame RowRT) :
  NoDup (map (fun x => base (snd x)) g) ->
  NoDup (map (fun x => base (snd x)) (filter (le_limit limit) g)).
Proof.
  induction g as [|y t IH]; intros H; [constructor|].
  cbn [map] in H. apply NoDup_cons_iff in H as [Hy Ht].
  cbn [filter]. destruct (le_limit limit y); [|now apply IH].
  cbn [map]. apply NoDup_cons; [|now apply IH].
  intros Hin. apply Hy.
  apply in_map_iff in Hin as (z & Hz & Hin).
  apply filter_In in Hin as [Hin _].
  apply in_map_iff. now exists z.
Qed.

Lemma response_times_distinct (limit : Z) (df : Frame Row) :
  NoDup (map snd df) ->
  NoDup (map base (map snd (response_times limit df))).
Proof.
  intros H. rewrite map_map, response_times_pass.
  apply le_limit_distinct. rewrite gaps_base. now apply switches_distinct.
Qed.

Lemma response_times_In_df (limit : Z) (df : Frame Row) (i : nat) (q : RowRT) :
  In (i, q) (response_times limit df) -> In (i, base q) df.
Proof.
  intros H. now apply response_times_In, switches_In in H.
Qed.

Lemma fst_unique {A B} (l : list (A * B)) (i j : A) (r : B) :
  NoDup (map snd l) -> In (i, r) l -> In (j, r) l -> i = j.
Proof.
  induction l as [|[a b] t IH]; intros Hnd Hi Hj; simpl in *; [contradiction|].
  inversion Hnd as [|? ? Hb Ht]; subst.
  destruct Hi as [Hi|Hi], Hj as [Hj|Hj].
  - congruence.
  - injection Hi as -> ->. exfalso. apply Hb. apply in_map_iff. now exists (j, r).
  - injection Hj as -> ->. exfalso. apply Hb. apply in_map_iff. now exists (i, r).
  - now apply IH.
Qed.

Lemma snd_unique {A B} (l : list (A * B)) (i : A) (r q : B) :
  NoDup (map fst l) -> In (i, r) l -> In (i, q) l -> r = q.
Proof.
  induction l as [|[a b] t IH]; intros Hnd Hr Hq; simpl in *; [contradiction|].
  inversion Hnd as [|? ? Ha Ht]; subst.
  destruct Hr as [Hr|Hr], Hq as [Hq|Hq].
  - congruence.
  - injection Hr as -> ->. exfalso. apply Ha. apply in_map_iff. now exists (i, q).
  - injection Hq as -> ->. exfalso. apply Ha. apply in_map_iff. now exists (i, r).
  - now apply IH.
Qed.

(** With distinct records a key names one label. *)
Lemma response_of_key_at (df : Frame Row) (rt : Frame RowRT) (i : nat) (r : Row) :
  NoDup (map fst df) ->
  NoDup (map snd df) ->
  (forall j q, In (j, q) rt -> In (j, base q) df) ->
  In (i, r) df ->
  response_of_key (map snd rt) r = response_at rt i.
Proof.
  intros Hf Hs Hsub Hin. unfold response_of_key, response_at.
  induction rt as [|[j q] t IH]; simpl; [reflexivity|].
  assert (Hj : In (j, base q) df) by (apply Hsub; now left).
  assert (E : Row_eqb r (base q) = Nat.eqb j i).
  { destruct (Nat.eqb_spec j i) as [->|Hne].
    - apply Row_eqb_eq. eapply snd_unique; eauto.
    - apply Row_eqb_neq. intros ->. apply Hne. eapply fst_unique; eauto. }
  rewrite E. destruct (Nat.eqb j i); [reflexivity|].
  apply IH. intros j' q' H. apply Hsub. now right.
Qed.

(** When no two records agree on every column, line 69 attaches the
    response times by position: the records of [df] in order, each with the
    response time computed for its own label, if any. *)
Lemma estimate_distinct (limit : Z) (df : Frame Row) :
  NoDup (map fst df) ->
  NoDup (map snd df) ->
  estimate limit df = join_on_index df (response_times limit df).
Proof.
  intros Hf Hs. unfold estimate, join_on_index.
  rewrite merge_distinct; try assumption.
  - rewrite map_map. apply map_ext_in. intros [i r] Hin. simpl. f_equal.
    apply (response_of_key_at df); try assumption.
    apply response_times_In_df.
  - now apply response_times_distinct.
  - intros k Hk. rewrite map_map in Hk. apply in_map_iff in Hk as ([j q] & <- & Hq).
    apply response_times_In_df in Hq. apply in_map_iff. now exists (j, base q).
Qed.

Lemma rows_from_labels (n : nat) (lines : list string) :
  NoDup (map fst (rows_from n lines)).
Proof.
  revert n. induction lines as [|x t IH]; intros n; simpl; [constructor|].
  destruct (kept x); [|apply IH].
  simpl. constructor; [|apply IH].
  intros H. apply rows_from_label_lt in H. lia.
Qed.

(** The same for the pipeline: on an input whose records all differ, the
    output lists the reconstructed records in line order, each with the
    response time lines 65-68 computed for it. *)
Lemma main_distinct (lines : list string) (df : Frame Row) :
  reconstruct lines = ok df ->
  NoDup (map snd df) ->
  main lines = ok (join_on_index df (response_times response_timelimit df)).
Proof.
  intros R Hs. rewrite main_pass, R. unfold fmap. simpl. f_equal.
  apply estimate_distinct; [|exact Hs].
  apply reconstruct_ok_inv in R as (_ & _ & ->).
  unfold fillna_ffill. rewrite ffill_from_fst. apply rows_from_labels.
Qed.

(** ** C1, C2, C8: the merge joins on the values of the rows *)

(** C1 at [late_then_same_second].  The timestamps do not decrease.  The
    record of line 1 is a sender switch 25500 seconds after the one before
    it, more than the 21600 seconds of the limit, and line 68 removes it
    from [df_response_times]; the record of line 3 has the same timestamp,
    sender and body and a gap of 0.  The merge pairs both with that one
    right row, so the record of line 1 comes out with a response time of 0:
    present although its gap exceeds the limit, and not its gap. *)
Theorem C1_stale_switch_gets_response_time :
  nondecreasing (timestamps late_then_same_second) = true /\
  (exists df,
      reconstruct late_then_same_second = ok df /\
      sender_change df = [true; true; true; true] /\
      diff (map (fun r => datetime (snd r)) (boolean_index df (sender_change df))) =
      [None; Some 25500; Some 0; Some 0] /\
      map fst (response_times response_timelimit df) = [2%nat; 3%nat]) /\
  Datetime.hours response_timelimit = 21600 /\
  main late_then_same_second =
  ok [attach None (record "01.01.23, 10:00:00" "Alice" "a");
      attach (Some 0) (record "01.01.23, 17:05:00" "Bob" "ok");
      attach (Some 0) (record "01.01.23, 17:05:00" "Bob" "ok");
      attach (Some 0) (record "01.01.23, 17:05:00" "Alice" "x")].
Proof.
  split; [reflexivity|]. split; [|split; [reflexivity|vm_compute; reflexivity]].
  eexists. split; [vm_compute; reflexivity|].
  repeat split; vm_compute; reflexivity.
Qed.

(** C2 at [said_twice].  The record of line 2 has the sender of the record
    before it and is not selected by line 65, yet the merge gives it the
    response time of the record of line 1, which has the same timestamp,
    sender and body. *)
Theorem C2_repeated_record_gets_response_time :
  (exists df,
      reconstruct said_twice = ok df /\
      sender_change df = [true; true; false] /\
      map fst (response_times response_timelimit df) = [1%nat]) /\
  main said_twice =
  ok [attach None (record "01.01.23, 10:00:00" "Alice" "a");
      attach (Some 300) (record "01.01.23, 10:05:00" "Bob" "ok");
      attach (Some 300) (record "01.01.23, 10:05:00" "Bob" "ok")].
Proof.
  split; [|vm_compute; reflexivity].
  eexists. split; [vm_compute; reflexivity|].
  split; vm_compute; reflexivity.
Qed.

(** C8 at [same_second].  Four records are reconstructed; the merged frame
    has six rows.  The records of lines 1 and 3 agree on every column and
    both have a response time (300 and 0 seconds): each is paired with both
    right rows, and the group comes before the record of line 2. *)
Theorem C8_merge_duplicates_and_reorders :
  fmap (map snd) (reconstruct same_second) =
  ok [record "01.01.23, 10:00:00" "Alice" "a";
      record "01.01.23, 10:05:00" "Bob" "ok";
      record "01.01.23, 10:05:00" "Alice" "x";
      record "01.01.23, 10:05:00" "Bob" "ok"] /\
  main same_second =
  ok [attach None (record "01.01.23, 10:00:00" "Alice" "a");
      attach (Some 300) (record "01.01.23, 10:05:00" "Bob" "ok");
      attach (Some 0) (record "01.01.23, 10:05:00" "Bob" "ok");
      attach (Some 300) (record "01.01.23, 10:05:00" "Bob" "ok");
      attach (Some 0) (record "01.01.23, 10:05:00" "Bob" "ok");
      attach (Some 0) (record "01.01.23, 10:05:00" "Alice" "x")].
Proof. split; vm_compute; reflexivity. Qed.

(** ** C3, C5, C10: inputs on which the claims as stated fail *)

(** C3 as stated fails at [starts_with_continuation]: no error, and a first
    record without sender and timestamp. *)
Lemma C3_no_error_without_prefix :
  has_prefix (ln "there") = false /\
  reconstruct starts_with_continuation =
  ok [(0%nat, orphan "there");
      (1%nat, record "01.01.23, 10:00:00" "Alice" "Hi")] /\
  main starts_with_continuation =
  ok [attach None (orphan "there");
      attach None (record "01.01.23, 10:00:00" "Alice" "Hi")].
Proof. repeat split; vm_compute; reflexivity. Qed.

(** C5 as stated fails at [empty_between], at [blank_continuation] and at
    [bad_date_after_continuation]: the nearest prefixed line before "there"
    is Bob's, and the record has Alice's sender and timestamp; the blank
    continuation line has no record at all; and a timestamp that does not
    parse further down leaves the continuation line "there" without
    record, since line 57 raises. *)
Lemma C5_empty_prefixed_line_not_carried :
  (has_prefix (ln "[01.01.23, 10:05:00] Bob: ") = true /\
   sender (ln "[01.01.23, 10:05:00] Bob: ") = Some "Bob" /\
   has_prefix (ln "there") = false /\
   reconstruct empty_between =
   ok [(0%nat, record "01.01.23, 10:00:00" "Alice" "Hi");
       (2%nat, record "01.01.23, 10:00:00" "Alice" "there")]) /\
  (has_prefix (ln "") = false /\
   reconstruct blank_continuation =
   ok [(0%nat, record "01.01.23, 10:00:00" "Alice" "Hi");
       (2%nat, record "01.01.23, 10:00:00" "Alice" "there")]) /\
  (kept (ln "there") = true /\
   has_prefix (ln "there") = false /\
   reconstruct bad_date_after_continuation = raise ValueError).
Proof. repeat split; vm_compute; reflexivity. Qed.

(** C10 as stated fails at [empty_first], where the first line has the
    prefix and the record of the continuation line "more" is selected by
    line 65, and at [repeated_in_continuation], where the record of the
    continuation line comes out with a response time. *)
Lemma C10_continuation_switch_and_response_time :
  (has_prefix (ln "[01.01.23, 10:00:00] Alice: ") = true /\
   has_prefix (ln "more") = false /\
   exists df,
     reconstruct empty_first = ok df /\
     df = [(1%nat, orphan "there"); (2%nat, orphan "more")] /\
     boolean_index df (sender_change df) = df) /\
  (has_prefix (ln "ok") = false /\
   main repeated_in_continuation =
   ok [attach None (record "01.01.23, 10:00:00" "Alice" "a");
       attach (Some 300) (record "01.01.23, 10:05:00" "Bob" "ok");
       attach (Some 300) (record "01.01.23, 10:05:00" "Bob" "ok")]).
Proof.
  split.
  - split; [vm_compute; reflexivity|]. split; [vm_compute; reflexivity|].
    eexists. split; [vm_compute; reflexivity|]. split; vm_compute; reflexivity.
  - split; vm_compute; reflexivity.
Qed.

(** ** The theorems at concrete inputs *)

Lemma C3_witness :
  forallb (fun x => negb (kept x)) [ln ""] = true /\
  kept (ln "there") = true /\
  has_prefix (ln "there") = false /\
  forallb timestamp_ok [ln "[01.01.23, 10:00:00] Alice: Hi"] = true /\
  exists rest,
    reconstruct ([ln ""] ++ ln "there" :: [ln "[01.01.23, 10:00:00] Alice: Hi"]) =
    ok ((1%nat,
         {| datetime := None; messenger := None; message := body (ln "there");
            date := None; time := None |}) :: rest).
Proof.
  refine (conj eq_refl (conj eq_refl (conj eq_refl (conj eq_refl _)))).
  exact (C3_leading_continuation_kept_without_sender
           [ln ""] (ln "there") [ln "[01.01.23, 10:00:00] Alice: Hi"]
           eq_refl eq_refl eq_refl eq_refl).
Defined.

Lemma C5_witness :
  exists before after,
    reconstruct ([] ++ ln "[01.01.23, 10:00:00] Alice: Hi" :: [ln ""]) = ok before /\
    reconstruct ([] ++ ln "[01.01.23, 10:00:00] Alice: Hi" :: [ln ""] ++
                 ln "there" :: [ln "[01.01.23, 10:05:00] Bob: Hello"]) =
    ok (before ++
        (List.length ([] ++ ln "[01.01.23, 10:00:00] Alice: Hi" :: [ln ""]),
         {| datetime := Some 1672567200;
            messenger := sender (ln "[01.01.23, 10:00:00] Alice: Hi");
            message := body (ln "there");
            date := Datetime.date_of (Some 1672567200);
            time := Datetime.time_of (Some 1672567200) |}) :: after).
Proof.
  exact (proj1 C5_continuation_takes_last_kept_prefix
           [] (ln "[01.01.23, 10:00:00] Alice: Hi") [ln ""] (ln "there")
           [ln "[01.01.23, 10:05:00] Bob: Hello"] 1672567200
           eq_refl eq_refl eq_refl eq_refl eq_refl eq_refl eq_refl).
Defined.

Lemma C6_witness :
  body (ln "[01.01.23, 10:05:00] Bob: ") = Some "" /\
  [ln "[01.01.23, 10:00:00] Alice: Hi"] ++ [ln "there"] <> [] /\
  fmap (map snd) (reconstruct empty_between) = fmap (map snd) (reconstruct scenario_B) /\
  main empty_between = main scenario_B.
Proof.
  refine (conj eq_refl (conj _ _)); [discriminate|].
  exact (proj2 (proj2 C6_bodies_nonempty_and_empty_lines_dropped
                  [ln "[01.01.23, 10:00:00] Alice: Hi"]
                  (ln "[01.01.23, 10:05:00] Bob: ") [ln "there"] eq_refl)
               ltac:(discriminate)).
Defined.

Lemma C9_witness :
  nondecreasing (timestamps scenario_A) = true /\
  0 <= 300.
Proof.
  refine (conj eq_refl _).
  refine (C9_response_time_nonnegative
            scenario_A _
            (attach (Some 300) (record "01.01.23, 10:05:00" "Bob" "Hello")) 300
            eq_refl scenario_A_main _ eq_refl).
  right. left. reflexivity.
Defined.

Lemma C10_witness :
  first_kept_has_prefix scenario_B = true /\
  kept (ln "there") = true /\
  has_prefix (ln "there") = false /\
  exists before prev r after,
    [(0%nat, record "01.01.23, 10:00:00" "Alice" "Hi");
     (1%nat, record "01.01.23, 10:00:00" "Alice" "there")] =
    before ++ prev :: (1%nat, r) :: after /\
    messenger r = messenger (snd prev) /\
    messenger r <> None.
Proof.
  refine (conj eq_refl (conj eq_refl (conj eq_refl _))).
  destruct (C10_continuation_is_no_sender_switch
              [ln "[01.01.23, 10:00:00] Alice: Hi"] (ln "there") []
              [(0%nat, record "01.01.23, 10:00:00" "Alice" "Hi");
               (1%nat, record "01.01.23, 10:00:00" "Alice" "there")]
              eq_refl eq_refl eq_refl eq_refl)
    as (before & prev & r & after & E & Hs & Hn & _).
  exists before, prev, r, after. exact (conj E (conj Hs Hn)).
Defined.

(** * Properties of the rest of [main.py] *)

(** ** Words *)

Lemma split_acc_clean (w s : Re.text) :
  Forall (fun c => is_space c = false) w ->
  Forall clean_word (split_acc w s).
Proof.
  revert w. induction s as [|c t IH]; intros w Hw; simpl.
  - destruct w as [|a w']; constructor; [|constructor].
    split; [|now apply Forall_rev].
    intros E. apply (f_equal (@List.length ascii)) in E.
    rewrite length_rev in E. discriminate.
  - destruct (is_space c) eqn:Sc.
    + destruct w as [|a w'].
      * apply IH. constructor.
      * constructor; [|apply IH; constructor].
        split; [|now apply Forall_rev].
        intros E. apply (f_equal (@List.length ascii)) in E.
        rewrite length_rev in E. discriminate.
    + apply IH. now constructor.
Qed.

Lemma split_acc_word (w acc rest : Re.text) :
  Forall (fun c => is_space c = false) w ->
  split_acc acc (w ++ rest) = split_acc (rev w ++ acc) rest.
Proof.
  revert acc. induction w as [|c t IH]; intros acc H; simpl; [reflexivity|].
  inversion H as [|? ? Hc Ht]; subst. rewrite Hc, IH by assumption.
  now rewrite <- app_assoc.
Qed.

Lemma split_join_text (ws : list Re.text) :
  Forall clean_word ws -> split_acc [] (join_text ws) = ws.
Proof.
  induction ws as [|w t IH]; intros H; [reflexivity|].
  inversion H as [|? ? [Hne Hw] Ht]; subst.
  destruct t as [|w' t'].
  - simpl. rewrite <- (app_nil_r w) at 1. rewrite split_acc_word by assumption.
    rewrite app_nil_r. simpl. destruct (rev w) as [|a r] eqn:E.
    + apply (f_equal (@List.length ascii)) in E. rewrite length_rev in E.
      destruct w; [congruence|discriminate].
    + rewrite <- E, rev_involutive. reflexivity.
  - change (join_text (w :: w' :: t')) with (w ++ " "%char :: join_text (w' :: t')).
    rewrite split_acc_word by assumption. rewrite app_nil_r.
    cbn [split_acc]. change (is_space " "%char) with true. cbv iota.
    destruct (rev w) as [|a r] eqn:E.
    + apply (f_equal (@List.length ascii)) in E. rewrite length_rev in E.
      destruct w; [congruence|discriminate].
    + rewrite <- E, rev_involutive, IH by assumption. reflexivity.
Qed.

Lemma list_ascii_of_string_append (a b : string) :
  list_ascii_of_string (a ++ b)%string = list_ascii_of_string a ++ list_ascii_of_string b.
Proof.
  induction a as [|c a IH]; simpl; [reflexivity|]. now rewrite IH.
Qed.

Lemma join_spaces_text (ws : list Re.text) :
  list_ascii_of_string (join_spaces (map string_of_list_ascii ws)) = join_text ws.
Proof.
  unfold join_spaces. induction ws as [|w t IH]; [reflexivity|].
  destruct t as [|w' t'].
  - simpl. apply list_ascii_of_string_of_list_ascii.
  - change (map string_of_list_ascii (w :: w' :: t'))
      with (string_of_list_ascii w :: map string_of_list_ascii (w' :: t')).
    cbn [String.concat]. 
    change (map string_of_list_ascii (w' :: t'))
      with (string_of_list_ascii w' :: map string_of_list_ascii t') at 1.
    cbv iota. rewrite !list_ascii_of_string_append, IH.
    rewrite list_ascii_of_string_of_list_ascii. reflexivity.
Qed.

(** X1.  Round trip of [split] and [" ".join]: joining the words of a
    message with single spaces and splitting again gives the same words. *)
Theorem X1_split_join_round_trip :
  forall message : string,
    split (join_spaces (split message)) = split message.
Proof.
  intros message. unfold split. rewrite join_spaces_text.
  rewrite split_join_text; [reflexivity|].
  apply split_acc_clean. constructor.
Qed.

(** X2.  [split] never returns an empty word or a word with a whitespace
    character in it, whatever the message. *)
Theorem X2_split_words_clean :
  forall (message w : string),
    In w (split message) ->
    w <> "" /\
    forall c, In c (list_ascii_of_string w) -> is_space c = false.
Proof.
  intros message w H. unfold split in H.
  apply in_map_iff in H as (t & <- & Ht).
  pose proof (split_acc_clean [] (list_ascii_of_string message) (Forall_nil _)) as F.
  rewrite Forall_forall in F. destruct (F t Ht) as [Hne Hc]. split.
  - intros E. apply Hne. apply (f_equal list_ascii_of_string) in E.
    now rewrite list_ascii_of_string_of_list_ascii in E.
  - rewrite list_ascii_of_string_of_list_ascii. now apply Forall_forall.
Qed.

Lemma X2_witness :
  In "are" (split "How are  you") /\
  "are" <> "" /\
  forall c, In c (list_ascii_of_string "are") -> is_space c = false.
Proof.
  refine (let H := _ in
          conj H (X2_split_words_clean "How are  you" "are" H)).
  right. left. reflexivity.
Defined.

(** ** Counters *)

Lemma find_count_element_same (w : string) (c : Counter) :
  counter_get (count_element w c) w = S (counter_get c w).
Proof.
  unfold counter_get. induction c as [|[k n] t IH]; simpl.
  - now rewrite String.eqb_refl.
  - destruct (String.eqb k w) eqn:E; simpl; rewrite E; [reflexivity|exact IH].
Qed.

Lemma find_count_element_other (w w' : string) (c : Counter) :
  w <> w' -> counter_get (count_element w c) w' = counter_get c w'.
Proof.
  intros Hne. unfold counter_get. induction c as [|[k n] t IH]; simpl.
  - apply String.eqb_neq in Hne. now rewrite Hne.
  - destruct (String.eqb k w) eqn:E; simpl.
    + apply String.eqb_eq in E. subst k.
      apply String.eqb_neq in Hne. now rewrite Hne.
    + destruct (String.eqb k w'); [reflexivity|exact IH].
Qed.

Lemma counter_get_fold (words : list string) (c : Counter) (w : string) :
  counter_get (fold_left (fun mapping elem => count_element elem mapping) words c) w =
  (counter_get c w + count_occ string_dec words w)%nat.
Proof.
  revert c. induction words as [|x t IH]; intros c; simpl; [lia|].
  rewrite IH. destruct (string_dec x w) as [->|Hne].
  - rewrite find_count_element_same. lia.
  - now rewrite find_count_element_other.
Qed.

Lemma counter_get_occurrences (col : list string) (w : string) :
  counter_get (compute_word_usage_frequency col) w =
  count_occ string_dec (flat_map split col) w.
Proof.
  unfold compute_word_usage_frequency, counter_of.
  rewrite counter_get_fold. unfold counter_get. simpl.
  f_equal. clear. induction col as [|m t IH]; simpl; [reflexivity|].
  now rewrite IH.
Qed.

(** X3.  The counter holds, for every word, the number of times it occurs
    among the words of all messages of the column, and 0 for any other
    string. *)
Theorem X3_counter_counts_occurrences :
  forall (message_column : list string) (word : string),
    counter_get (compute_word_usage_frequency message_column) word =
    count_occ string_dec (flat_map split message_column) word.
Proof. exact counter_get_occurrences. Qed.

Lemma count_element_keys (w : string) (c : Counter) (k : string) :
  In k (map fst (count_element w c)) <-> k = w \/ In k (map fst c).
Proof.
  induction c as [|[k' n] t IH]; simpl.
  - split; intros [H|[]]; left; congruence.
  - destruct (String.eqb k' w) eqn:E; simpl.
    + apply String.eqb_eq in E. subst k'. split; [tauto|].
      intros [H|[H|H]]; auto.
    + rewrite IH. tauto.
Qed.

Lemma count_element_distinct (w : string) (c : Counter) :
  NoDup (map fst c) -> NoDup (map fst (count_element w c)).
Proof.
  induction c as [|[k n] t IH]; intros H; simpl.
  - constructor; [intros []|constructor].
  - inversion H as [|? ? Hk Ht]; subst.
    destruct (String.eqb k w) eqn:E; simpl; constructor; auto.
    intros Hin. apply count_element_keys in Hin as [->|Hin]; [|contradiction].
    rewrite String.eqb_refl in E. discriminate.
Qed.

Lemma count_element_total (w : string) (c : Counter) :
  counter_total (count_element w c) = S (counter_total c).
Proof.
  unfold counter_total. induction c as [|[k n] t IH]; simpl; [reflexivity|].
  destruct (String.eqb k w); simpl; [reflexivity|]. rewrite IH. lia.
Qed.

Lemma fold_count_distinct_total (words : list string) (c : Counter) :
  NoDup (map fst c) ->
  let c' := fold_left (fun mapping elem => count_element elem mapping) words c in
  NoDup (map fst c') /\
  counter_total c' = (counter_total c + List.length words)%nat /\
  (forall k, In k (map fst c') <-> In k (map fst c) \/ In k words).
Proof.
  revert c. induction words as [|x t IH]; intros c H; simpl.
  - repeat split; auto; try lia. tauto.
  - destruct (IH (count_element x c) (count_element_distinct x c H)) as (H1 & H2 & H3).
    split; [exact H1|]. split.
    + rewrite H2, count_element_total. lia.
    + intros k. rewrite H3, count_element_keys.
      split.
      * intros [[Hk|Hk]|Hk]; [subst; right; now left|now left|right; now right].
      * intros [Hk|[Hk|Hk]]; [left; now right|subst; left; now left|now right].
Qed.

(** X4.  The keys of the counter are exactly the words of the column, each
    once, and the counts add up to the number of words. *)
Theorem X4_counter_keys_and_total :
  forall message_column : list string,
    let c := compute_word_usage_frequency message_column in
    NoDup (map fst c) /\
    (forall k, In k (map fst c) <-> In k (flat_map split message_column)) /\
    counter_total c = List.length (flat_map split message_column).
Proof.
  intros col. unfold compute_word_usage_frequency, counter_of.
  assert (E : flat_map (fun sublist : list string => sublist) (map split col) =
              flat_map split col).
  { induction col as [|m t IH]; simpl; [reflexivity|]. now rewrite IH. }
  rewrite E.
  destruct (fold_count_distinct_total (flat_map split col) [] (NoDup_nil _))
    as (H1 & H2 & H3).
  split; [exact H1|]. split.
  - intros k. rewrite H3. simpl. tauto.
  - rewrite H2. reflexivity.
Qed.

(** X5.  Counting composes: the count of a word in two columns put
    together is the sum of its counts in each. *)
Theorem X5_counter_of_appended_columns :
  forall (a b : list string) (word : string),
    counter_get (compute_word_usage_frequency (a ++ b)) word =
    (counter_get (compute_word_usage_frequency a) word +
     counter_get (compute_word_usage_frequency b) word)%nat.
Proof.
  intros a b w.
  rewrite !counter_get_occurrences, flat_map_app. apply count_occ_app.
Qed.

(** ** More on lines 45-69 *)

Lemma timestamp_raises (x : string) (e : Error) :
  timestamp x = raise e -> e = ValueError /\ has_prefix x = true.
Proof.
  unfold timestamp, has_prefix. rewrite classify_parsed_line. simpl.
  destruct (parsed_line_shape x) as [(d & w & b & E)|(b & E)]; rewrite E; simpl.
  - destruct (Datetime.strptime d); [discriminate|]. intros [= <-]. now split.
  - discriminate.
Qed.

Lemma rows_from_kept_labels (n : nat) (lines : list string) :
  map fst (rows_from n lines) =
  map fst (filter (fun p => kept (snd p))
                  (combine (seq n (List.length lines)) lines)).
Proof.
  revert n. induction lines as [|x t IH]; intros n; simpl; [reflexivity|].
  destruct (kept x); simpl; now rewrite IH.
Qed.

(** X6.  What reconstruction can do, and when.  It raises [KeyError] on an
    input without lines and on no other; it raises [ValueError] only on a
    line that is kept, has the prefix and a timestamp that does not parse;
    the failure of the search is impossible; otherwise there is exactly one
    record per line with a non-empty body, labelled with its line number. *)
Theorem X6_reconstruct_outcomes :
  forall lines : list string,
    match reconstruct lines with
    | inl KeyError => lines = []
    | inl ValueError =>
        exists x, In x lines /\ kept x = true /\ has_prefix x = true /\
                  timestamp x = raise ValueError
    | inl AttributeError => False
    | inr df => lines <> [] /\ forallb timestamp_ok lines = true /\
                map fst df = kept_labels lines
    end.
Proof.
  intros lines. rewrite reconstruct_pass. destruct lines as [|l0 t]; [reflexivity|].
  remember (l0 :: t) as lines eqn:E.
  destruct (forallb timestamp_ok lines) eqn:F.
  - split; [subst; discriminate|]. split; [reflexivity|].
    unfold fillna_ffill, kept_labels. rewrite ffill_from_fst.
    apply rows_from_kept_labels.
  - assert (H : exists x, In x lines /\ timestamp_ok x = false).
    { clear E. induction lines as [|x xs IH]; simpl in F; [discriminate|].
      destruct (timestamp_ok x) eqn:T.
      - destruct (IH F) as (y & Hy & Ty). exists y. split; [now right|exact Ty].
      - exists x. split; [now left|exact T]. }
    destruct H as (x & Hx & T). exists x. split; [exact Hx|].
    unfold timestamp_ok in T. apply orb_false_iff in T as [K T].
    apply negb_false_iff in K. split; [exact K|].
    destruct (timestamp x) as [e|ts] eqn:Tx; [|discriminate].
    destruct (timestamp_raises x e Tx) as [-> Hp]. now split.
Qed.

(** X8.  No response time of the output exceeds the limit of six hours
    (21600 seconds), whatever the order of the timestamps. *)
Theorem X8_response_time_within_limit :
  forall (lines : list string) (out : list RowRT) (r : RowRT) (d : Z),
    main lines = ok out ->
    In r out ->
    response_time r = Some d ->
    d <= 21600.
Proof.
  intros lines out r d Hmain Hin Hd.
  rewrite main_pass in Hmain.
  destruct (reconstruct lines) as [e|df]; [discriminate|]. injection Hmain as <-.
  unfold estimate in Hin. apply merge_In in Hin as [_ [Hn|(r' & Hr' & Heq)]].
  { congruence. }
  rewrite Heq in Hd. apply in_map_iff in Hr' as ([i q] & Hq & Hr'). simpl in Hq. subst q.
  rewrite response_times_pass in Hr'. apply filter_In in Hr' as [_ Hr'].
  unfold le_limit in Hr'. simpl in Hr'. rewrite Hd in Hr'.
  apply Z.leb_le in Hr'. exact Hr'.
Qed.

Lemma X8_witness : 300 <= 21600.
Proof.
  refine (X8_response_time_within_limit
            scenario_A _
            (attach (Some 300) (record "01.01.23, 10:05:00" "Bob" "Hello")) 300
            scenario_A_main _ eq_refl).
  right. left. reflexivity.
Defined.

Lemma switches_same_sender (w : string) (df : Frame Row) :
  Forall (fun x => messenger (snd x) = Some w) df ->
  switches (Some w) df = [].
Proof.
  induction df as [|[i r] t IH]; intros H; simpl; [reflexivity|].
  inversion H as [|? ? Hr Ht]; subst. simpl in Hr.
  rewrite Hr, ne_same. now apply IH.
Qed.

Lemma response_times_same_sender (limit : Z) (w : string) (df : Frame Row) :
  Forall (fun x => messenger (snd x) = Some w) df ->
  response_times limit df = [].
Proof.
  intros H. rewrite response_times_pass. destruct df as [|[i r] t]; [reflexivity|].
  inversion H as [|? ? Hr Ht]; subst. simpl in Hr.
  cbn [switches]. rewrite Hr. cbn [ne].
  rewrite (switches_same_sender w t Ht). simpl. unfold le_limit. simpl.
  now destruct (datetime r).
Qed.

(** X9.  A conversation of one sender has no response time at all: when
    every reconstructed record has the same sender, every record of the
    output has a missing [response_time]. *)
Theorem X9_single_sender_no_response_time :
  forall (lines : list string) (df : Frame Row) (out : list RowRT) (w : string)
         (r : RowRT),
    reconstruct lines = ok df ->
    Forall (fun x => messenger (snd x) = Some w) df ->
    main lines = ok out ->
    In r out ->
    response_time r = None.
Proof.
  intros lines df out w r R Hw Hmain Hin.
  rewrite main_pass, R in Hmain. injection Hmain as <-.
  unfold estimate in Hin. rewrite (response_times_same_sender _ w df Hw) in Hin.
  apply merge_In in Hin as [_ [Hn|(r' & [] & _)]]. exact Hn.
Qed.

Lemma X9_witness :
  response_time (attach None (record "01.01.23, 10:00:00" "Alice" "there")) = None.
Proof.
  refine (X9_single_sender_no_response_time
            scenario_B
            [(0%nat, record "01.01.23, 10:00:00" "Alice" "Hi");
             (1%nat, record "01.01.23, 10:00:00" "Alice" "there")]
            [attach None (record "01.01.23, 10:00:00" "Alice" "Hi");
             attach None (record "01.01.23, 10:00:00" "Alice" "there")]
            "Alice" _ eq_refl _ eq_refl _).
  - repeat constructor.
  - right. left. reflexivity.
Defined.

Lemma factorize_In (seen keys : list Row) (k : Row) :
  In k keys -> In k seen \/ In k (factorize seen keys).
Proof.
  revert seen. induction keys as [|x t IH]; intros seen H; simpl; [contradiction|].
  destruct (existsb (Row_eqb x) seen) eqn:E.
  - destruct H as [<-|H]; [left; now apply existsb_Row_eqb|now apply IH].
  - destruct H as [<-|H]; [right; now left|].
    destruct (IH (x :: seen) H) as [[<-|Hs]|Hf].
    + right. now left.
    + now left.
    + right. now right.
Qed.

Lemma merge_groups_left_In (left : list Row) (right : list RowRT) (l : Row) :
  In l left -> exists r, In r (merge_groups left right) /\ base r = l.
Proof.
  intros Hl. unfold merge_groups.
  assert (Hk : In l (factorize [] (left ++ map base right))).
  { destruct (factorize_In [] (left ++ map base right) l) as [[]|H]; [|exact H].
    apply in_or_app. now left. }
  assert (Hls : In l (filter (Row_eqb l) left)).
  { apply filter_In. split; [exact Hl|apply Row_eqb_refl]. }
  destruct (filter (fun r => Row_eqb l (base r)) right) as [|r0 rs] eqn:R.
  - exists (attach None l). split; [|reflexivity].
    apply in_flat_map. exists l. split; [exact Hk|]. rewrite R.
    destruct (filter (Row_eqb l) left); [contradiction|].
    apply in_map_iff. now exists l.
  - exists (attach (response_time r0) l). split; [|reflexivity].
    apply in_flat_map. exists l. split; [exact Hk|]. rewrite R.
    destruct (filter (Row_eqb l) left) as [|l0 ls] eqn:L; [contradiction|].
    apply in_flat_map. exists l. split; [exact Hls|]. now left.
Qed.

Lemma merge_left_In (left : list Row) (right : list RowRT) (l : Row) :
  In l left -> exists r, In r (merge left right) /\ base r = l.
Proof.
  intros Hl. unfold merge. destruct right as [|q right'].
  - exists (attach None l). split; [|reflexivity]. now apply in_map.
  - destruct left as [|l0 left']; [contradiction|].
    now apply merge_groups_left_In.
Qed.

(** X10.  The merge neither loses a record nor invents one: the records of
    the output, without [response_time], are exactly the reconstructed
    records (each possibly more than once). *)
Theorem X10_output_records_are_the_reconstructed :
  forall (lines : list string) (df : Frame Row) (out : list RowRT) (x : Row),
    reconstruct lines = ok df ->
    main lines = ok out ->
    (In x (map snd df) <-> In x (map base out)).
Proof.
  intros lines df out x R Hmain.
  rewrite main_pass, R in Hmain. injection Hmain as <-. split.
  - intros H. destruct (merge_left_In _ (map snd (response_times response_timelimit df)) x H)
      as (r & Hr & <-).
    now apply in_map.
  - intros H. apply in_map_iff in H as (r & <- & Hr). now apply estimate_In in Hr.
Qed.

Lemma X10_witness :
  In (record "01.01.23, 10:05:00" "Bob" "ok")
     (map snd [(0%nat, record "01.01.23, 10:00:00" "Alice" "a");
               (1%nat, record "01.01.23, 10:05:00" "Bob" "ok");
               (2%nat, record "01.01.23, 10:05:00" "Bob" "ok")]) <->
  In (record "01.01.23, 10:05:00" "Bob" "ok")
     (map base [attach None (record "01.01.23, 10:00:00" "Alice" "a");
                attach (Some 300) (record "01.01.23, 10:05:00" "Bob" "ok");
                attach (Some 300) (record "01.01.23, 10:05:00" "Bob" "ok")]).
Proof.
  exact (X10_output_records_are_the_reconstructed
           said_twice _ _ (record "01.01.23, 10:05:00" "Bob" "ok")
           eq_refl eq_refl).
Defined.

Lemma has_shape_prefix (cs : list (ascii -> bool)) (a b : Re.text) :
  has_shape cs a = true -> has_shape cs (a ++ b) = true.
Proof.
  revert a. induction cs as [|p cs IH]; intros a H; [reflexivity|].
  destruct a as [|c a]; [discriminate|]. simpl in *.
  apply andb_prop in H as [Hc Ha]. now rewrite Hc, IH.
Qed.

Lemma drop_while_all (p : ascii -> bool) (a b : Re.text) :
  forallb p a = true -> drop_while p (a ++ b) = drop_while p b.
Proof.
  induction a as [|c a IH]; intros H; simpl in *; [reflexivity|].
  apply andb_prop in H as [Hc Ha]. now rewrite Hc, IH.
Qed.

Lemma take_while_all (p : ascii -> bool) (a b : Re.text) :
  forallb p a = true -> take_while p (a ++ b) = a ++ take_while p b.
Proof.
  induction a as [|c a IH]; intros H; simpl in *; [reflexivity|].
  apply andb_prop in H as [Hc Ha]. now rewrite Hc, IH.
Qed.

Lemma length_list_ascii (x : string) :
  List.length (list_ascii_of_string x) = String.length x.
Proof. induction x as [|c x IH]; simpl; [reflexivity|]. now rewrite IH. Qed.

(** X7.  Round trip of the line format: a line written as
    [[timestamp] sender: body] and a newline, with a timestamp of the shape
    of the pattern, a sender without colon and a body without newline, is
    classified into exactly these three parts. *)
Theorem X7_classify_export_line :
  forall dt who msg : string,
    has_shape datetime_shape (list_ascii_of_string dt) = true ->
    String.length dt = 18%nat ->
    forallb not_colon (list_ascii_of_string who) = true ->
    forallb dot (list_ascii_of_string msg) = true ->
    classify (export_line dt who msg) =
    ok {| gd_datetime := Some dt; gd_messenger := Some who; gd_message := Some msg |}.
Proof.
  intros dt who msg Hshape Hlen Hwho Hmsg.
  rewrite classify_parsed_line. unfold parsed_line, export_line.
  rewrite <- length_list_ascii in Hlen.
  assert (E : list_ascii_of_string
                ("[" ++ dt ++ "] " ++ who ++ ": " ++ msg ++ nl)%string =
              "["%char :: list_ascii_of_string dt ++
              "]"%char :: " "%char :: list_ascii_of_string who ++
              ":"%char :: " "%char :: list_ascii_of_string msg ++ [newline]).
  { change ("[" ++ dt ++ "] " ++ who ++ ": " ++ msg ++ nl)%string
      with (String "[" (dt ++ String "]" (String " " (who ++ String ":" (String " " (msg ++ nl)))))%string).
    cbn [list_ascii_of_string]. rewrite list_ascii_of_string_append.
    cbn [list_ascii_of_string]. rewrite list_ascii_of_string_append.
    cbn [list_ascii_of_string]. rewrite list_ascii_of_string_append.
    reflexivity. }
  rewrite E. clear E.
  set (D := list_ascii_of_string dt) in *.
  set (W := list_ascii_of_string who) in *.
  set (M := list_ascii_of_string msg) in *.
  cbn [split_prefix]. rewrite Ascii.eqb_refl, has_shape_prefix by assumption.
  cbn [andb].
  rewrite <- Hlen at 1. rewrite skipn_app, skipn_all, Nat.sub_diag. cbn [skipn app].
  rewrite !Ascii.eqb_refl. cbn [andb].
  rewrite drop_while_all by assumption. cbn [drop_while].
  change (not_colon ":") with false. cbv iota.
  rewrite !Ascii.eqb_refl. cbn [andb].
  rewrite <- Hlen at 1. rewrite firstn_app, firstn_all, Nat.sub_diag. cbn [firstn].
  rewrite app_nil_r.
  rewrite !take_while_all by assumption. cbn [take_while].
  change (not_colon ":") with false. change (dot newline) with false. cbv iota.
  rewrite !app_nil_r.
  unfold D, W, M. now rewrite !string_of_list_ascii_of_string.
Qed.

Lemma X7_witness :
  classify (export_line "01.01.23, 10:00:00" "Alice" "Hi") =
  ok {| gd_datetime := Some "01.01.23, 10:00:00";
        gd_messenger := Some "Alice";
        gd_message := Some "Hi" |}.
Proof.
  exact (X7_classify_export_line "01.01.23, 10:00:00" "Alice" "Hi"
           eq_refl eq_refl eq_refl eq_refl).
Defined.

Lemma timestamp_prefixed (x : string) (t : option Z) :
  has_prefix x = true -> timestamp x = ok t -> t <> None.
Proof.
  unfold timestamp, has_prefix. rewrite classify_parsed_line. simpl.
  destruct (parsed_line_shape x) as [(d & w & b & E)|(b & E)]; rewrite E; simpl.
  - intros _. destruct (Datetime.strptime d); [|discriminate].
    intros [= <-]. discriminate.
  - discriminate.
Qed.

Lemma raw_row_coherent (x : string) :
  timestamp_ok x = true -> kept x = true -> coherent (raw_row x).
Proof.
  intros Hok Hk. unfold timestamp_ok in Hok. rewrite Hk in Hok. simpl in Hok.
  destruct (has_prefix x) eqn:P.
  - destruct (timestamp x) as [e|t] eqn:T; [discriminate|].
    pose proof (timestamp_prefixed x t P T) as Ht.
    destruct (raw_row_prefixed x P) as (w & Hs & Hm).
    unfold coherent. rewrite Hm. unfold raw_row. rewrite T. simpl.
    repeat split; intros H; congruence.
  - rewrite (raw_row_continuation x P). unfold coherent. simpl. tauto.
Qed.

Lemma fill_coherent (last r : Row) :
  coherent last -> coherent r -> coherent (fill last r).
Proof.
  intros (L1 & L2 & L3) (R1 & R2 & R3). unfold coherent, fill. simpl.
  destruct (datetime r) as [a|] eqn:A.
  - rewrite R1, R2. simpl.
    destruct (messenger r) as [w|] eqn:W.
    + simpl. repeat split; intros H; discriminate.
    + exfalso. destruct R3 as [_ R3]. specialize (R3 eq_refl). discriminate.
  - rewrite R1, R2. simpl. destruct R3 as [R3 _]. rewrite (R3 eq_refl). simpl.
    repeat split; tauto.
Qed.

Lemma ffill_from_coherent (last : Row) (df : Frame Row) :
  coherent last ->
  Forall (fun x => coherent (snd x)) df ->
  Forall (fun x => coherent (snd x)) (ffill_from last df).
Proof.
  revert last. induction df as [|[i r] t IH]; intros last Hl H; simpl; [constructor|].
  inversion H as [|? ? Hr Ht]; subst. simpl in Hr.
  constructor; [now apply fill_coherent|].
  apply IH; [now apply fill_coherent|exact Ht].
Qed.

Lemma rows_from_coherent (n : nat) (lines : list string) :
  forallb timestamp_ok lines = true ->
  Forall (fun x => coherent (snd x)) (rows_from n lines).
Proof.
  revert n. induction lines as [|x t IH]; intros n H; simpl in *; [constructor|].
  apply andb_prop in H as [Hx Ht].
  destruct (kept x) eqn:K; [|now apply IH].
  constructor; [now apply raw_row_coherent|now apply IH].
Qed.

(** X11.  In every record of the output the [date] and [time] columns are
    the date and the time of day of its [datetime], and the timestamp is
    missing exactly when the sender is: the forward fill takes all of them
    from the same line. *)
Theorem X11_output_rows_coherent :
  forall (lines : list string) (out : list RowRT) (r : RowRT),
    main lines = ok out ->
    In r out ->
    date (base r) = Datetime.date_of (datetime (base r)) /\
    time (base r) = Datetime.time_of (datetime (base r)) /\
    (datetime (base r) = None <-> messenger (base r) = None).
Proof.
  intros lines out r Hmain Hin. rewrite main_pass in Hmain.
  destruct (reconstruct lines) as [e|df] eqn:R; [discriminate|].
  injection Hmain as <-.
  apply reconstruct_ok_inv in R as (_ & Hok & ->).
  apply estimate_In in Hin. apply in_map_iff in Hin as (x & Hx & Hin).
  rewrite <- Hx.
  assert (F : Forall (fun x => coherent (snd x)) (fillna_ffill (rows_from 0 lines))).
  { apply ffill_from_coherent; [|now apply rows_from_coherent].
    unfold coherent, all_missing. simpl. tauto. }
  rewrite Forall_forall in F. exact (F x Hin).
Qed.

Lemma X11_witness :
  date (record "01.01.23, 10:05:00" "Bob" "Hello") =
  Datetime.date_of (datetime (record "01.01.23, 10:05:00" "Bob" "Hello")) /\
  time (record "01.01.23, 10:05:00" "Bob" "Hello") =
  Datetime.time_of (datetime (record "01.01.23, 10:05:00" "Bob" "Hello")) /\
  (datetime (record "01.01.23, 10:05:00" "Bob" "Hello") = None <->
   messenger (record "01.01.23, 10:05:00" "Bob" "Hello") = None).
Proof.
  refine (X11_output_rows_coherent
            scenario_A _
            (attach (Some 300) (record "01.01.23, 10:05:00" "Bob" "Hello"))
            scenario_A_main _).
  right. left. reflexivity.
Defined.

(** ** The analysis *)

Lemma eq_obj_some (w : string) (m : option string) :
  eq_obj (Some w) m = true <-> m = Some w.
Proof.
  destruct m as [x|]; simpl; [|split; discriminate].
  rewrite String.eqb_eq. split; congruence.
Qed.

Lemma list_sum_cons (a : nat) (l : list nat) :
  list_sum (a :: l) = (a + list_sum l)%nat.
Proof. reflexivity. Qed.

(** Among distinct senders at most one is equal to a given one. *)
Lemma count_equal_sender (w : string) (ms : list (option string)) :
  NoDup ms ->
  list_sum (map (fun m => if eq_obj (Some w) m then 1%nat else 0%nat) ms) =
  if in_dec option_string_dec (Some w) ms then 1%nat else 0%nat.
Proof.
  induction ms as [|m t IH]; intros H; [reflexivity|].
  inversion H as [|? ? Hm Ht]; subst. rewrite map_cons, list_sum_cons, (IH Ht).
  destruct (eq_obj (Some w) m) eqn:E.
  - apply eq_obj_some in E. subst m.
    destruct (in_dec option_string_dec (Some w) t); [contradiction|].
    destruct (in_dec option_string_dec (Some w) (Some w :: t)) as [_|n0]; [reflexivity|].
    exfalso. apply n0. now left.
  - assert (Hne : m <> Some w).
    { intros ->. rewrite (proj2 (eq_obj_some w (Some w)) eq_refl) in E. discriminate. }
    destruct (in_dec option_string_dec (Some w) t) as [i|n];
      destruct (in_dec option_string_dec (Some w) (m :: t)) as [i'|n']; try reflexivity.
    + exfalso. apply n'. now right.
    + exfalso. destruct i' as [i'|i']; [now apply Hne|now apply n].
Qed.

Lemma message_count_sum (df : list RowRT) (ms : list (option string)) :
  NoDup ms ->
  (forall r, In r df -> In (messenger (base r)) ms) ->
  list_sum (map (message_count df) ms) =
  List.length (filter (fun r => is_some (messenger (base r))) df).
Proof.
  intros Hnd. unfold message_count, of_messenger.
  induction df as [|r t IH]; intros Hin.
  - simpl. induction ms as [|m ms' IHm]; [reflexivity|].
    inversion Hnd; subst. simpl. now apply IHm.
  - assert (Ht : forall r0, In r0 t -> In (messenger (base r0)) ms).
    { intros r0 H0. apply Hin. now right. }
    specialize (IH Ht).
    assert (E : forall l : list (option string),
               list_sum (map (fun m => List.length
                                (filter (fun r0 => eq_obj (messenger (base r0)) m) (r :: t))) l) =
               (list_sum (map (fun m => if eq_obj (messenger (base r)) m
                                        then 1%nat else 0%nat) l) +
                list_sum (map (fun m => List.length
                                (filter (fun r0 => eq_obj (messenger (base r0)) m) t)) l))%nat).
    { induction l as [|m l' IHl]; [reflexivity|].
      rewrite !map_cons, !list_sum_cons, IHl. cbn [filter].
      destruct (eq_obj (messenger (base r)) m); simpl; lia. }
    rewrite E, IH. cbn [filter].
    destruct (messenger (base r)) as [w|] eqn:W.
    + rewrite count_equal_sender by assumption.
      destruct (in_dec option_string_dec (Some w) ms) as [_|n]; [reflexivity|].
      exfalso. apply n. rewrite <- W. apply Hin. now left.
    + simpl. clear. induction ms as [|m l IHl]; [reflexivity|]. simpl. exact IHl.
Qed.

(** X12.  The per-sender selections of line 75 to 80 split the records that
    have a sender: the message counts of all senders add up to the number
    of such records, and a record without sender is counted for nobody. *)
Theorem X12_message_counts_partition :
  forall df : list RowRT,
    list_sum (map (message_count df) (messengers df)) =
    List.length (filter (fun r => is_some (messenger (base r))) df) /\
    forall m r, In r (of_messenger df m) -> messenger (base r) <> None.
Proof.
  intros df. split.
  - apply message_count_sum.
    + apply NoDup_nodup.
    + intros r Hr. apply nodup_In. now apply (in_map (fun r0 => messenger (base r0))).
  - intros m r Hr. apply filter_In in Hr as [_ Hr].
    destruct (messenger (base r)); [discriminate|]. discriminate.
Qed.

(** X13.  The division of line 79 cannot fail: whenever there is a sender
    to compute an average for, the number of distinct dates is at least 1
    (and at most the number of records). *)
Theorem X13_day_count_positive :
  forall (df : list RowRT) (m : option string),
    In m (messengers df) ->
    (1 <= day_count df <= List.length df)%nat.
Proof.
  intros df m Hm. unfold messengers in Hm. apply nodup_In in Hm.
  unfold day_count. split.
  - destruct df as [|r t]; [contradiction|].
    assert (H : In (date (base r))
                   (nodup option_Z_dec (map (fun r0 => date (base r0)) (r :: t)))).
    { apply nodup_In. now left. }
    destruct (nodup option_Z_dec (map (fun r0 => date (base r0)) (r :: t)));
      [contradiction|simpl; lia].
  - rewrite <- (length_map (fun r0 => date (base r0)) df).
    apply NoDup_incl_length; [apply NoDup_nodup|].
    intros x Hx. now apply nodup_In in Hx.
Qed.

Lemma X13_witness :
  (1 <= day_count [attach None (record "01.01.23, 10:00:00" "Alice" "Hi");
                   attach (Some 300%Z) (record "01.01.23, 10:05:00" "Bob" "Hello")]
   <= 2)%nat.
Proof.
  refine (X13_day_count_positive
            [attach None (record "01.01.23, 10:00:00" "Alice" "Hi");
             attach (Some 300) (record "01.01.23, 10:05:00" "Bob" "Hello")]
            (Some "Bob") _).
  right. left. reflexivity.
Defined.

Lemma mapM_messages (l : list RowRT) :
  Forall (fun r => nonempty_body (base r)) l ->
  exists col,
    mapM (fun r => match message (base r) with
                   | Some text => ok text
                   | None => raise AttributeError
                   end) l = ok col /\
    map Some col = map (fun r => message (base r)) l.
Proof.
  induction l as [|r t IH]; intros H; simpl.
  - now exists [].
  - inversion H as [|? ? (b & Hb & _) Ht]; subst.
    destruct (IH Ht) as (col & E & Hc). rewrite Hb, E. simpl.
    exists (b :: col). split; [reflexivity|]. simpl. now rewrite Hc.
Qed.

Lemma main_bodies (lines : list string) (out : list RowRT) :
  main lines = ok out -> Forall (fun r => nonempty_body (base r)) out.
Proof.
  intros H. rewrite main_pass in H.
  destruct (reconstruct lines) as [e|df] eqn:R; [discriminate|].
  apply reconstruct_ok_inv in R as (_ & _ & ->). injection H as <-.
  apply Forall_forall. intros r Hr.
  apply estimate_In in Hr. apply in_map_iff in Hr as (x & Hx & Hin). rewrite <- Hx.
  pose proof (ffill_from_nonempty all_missing _ (rows_from_nonempty 0 lines)) as F.
  rewrite Forall_forall in F. now apply F.
Qed.

(** X14.  Line 91 does not raise on the frame of line 69: every message of
    a sender's rows is a string, so [split] applies, and the counter is
    that of exactly these messages. *)
Theorem X14_word_usage_defined :
  forall (lines : list string) (out : list RowRT) (m : option string),
    main lines = ok out ->
    exists col,
      word_usage_frequency out m = ok (compute_word_usage_frequency col) /\
      map Some col = map (fun r => message (base r)) (of_messenger out m).
Proof.
  intros lines out m H. apply main_bodies in H.
  assert (F : Forall (fun r => nonempty_body (base r)) (of_messenger out m)).
  { rewrite Forall_forall in *. intros r Hr. apply H.
    now apply filter_In in Hr as [Hr _]. }
  destruct (mapM_messages _ F) as (col & E & Hc).
  exists col. split; [|exact Hc]. unfold word_usage_frequency. now rewrite E.
Qed.

Lemma X14_witness :
  exists col,
    word_usage_frequency
      [attach None (record "01.01.23, 10:00:00" "Alice" "Hi");
       attach (Some 300) (record "01.01.23, 10:05:00" "Bob" "Hello");
       attach None (record "01.01.23, 10:06:00" "Bob" "How are you")]
      (Some "Bob") = ok (compute_word_usage_frequency col) /\
    map Some col =
    map (fun r => message (base r))
        (of_messenger
           [attach None (record "01.01.23, 10:00:00" "Alice" "Hi");
            attach (Some 300) (record "01.01.23, 10:05:00" "Bob" "Hello");
            attach None (record "01.01.23, 10:06:00" "Bob" "How are you")]
           (Some "Bob")).
Proof.
  exact (X14_word_usage_defined scenario_A _ (Some "Bob") scenario_A_main).
Defined.

(** ** Hours of the day *)

Lemma even_mod_24 (q : Z) : Z.even (q mod 24) = Z.even q.
Proof.
  rewrite (Z.div_mod q 24) at 2 by lia.
  replace (24 * (q / 24) + q mod 24) with (q mod 24 + 2 * (12 * (q / 24))) by lia.
  now rewrite Z.even_add_mul_2.
Qed.

(** X15.  The hour under which a message is counted in the plot of line
    97-99: the hour of its timestamp when less than half an hour has
    passed, the next hour (0 after 23) when more has, and at the half hour
    the even one of the two; it is always one of 0 to 23. *)
Theorem X15_rounded_hour :
  forall t : Z,
    0 <= hour (round_H t) < 24 /\
    hour (round_H t) =
    if t mod 3600 <? 1800 then hour t
    else if 1800 <? t mod 3600 then (hour t + 1) mod 24
    else if Z.even (hour t) then hour t
    else (hour t + 1) mod 24.
Proof.
  intros t. split.
  { unfold hour. apply Z.mod_pos_bound. lia. }
  unfold round_H, hour.
  pose proof (Z.mod_pos_bound t 3600 ltac:(lia)) as Hr.
  destruct (t mod 3600 <? 1800) eqn:Lt.
  - apply Z.ltb_lt in Lt.
    replace (1800 <? t mod 3600) with false by (symmetry; apply Z.ltb_ge; lia).
    replace (t mod 3600 =? 1800) with false by (symmetry; apply Z.eqb_neq; lia).
    simpl. now rewrite Z.div_mul by lia.
  - apply Z.ltb_ge in Lt. destruct (1800 <? t mod 3600) eqn:Gt.
    + simpl. rewrite Z.div_mul by lia. now rewrite Z.add_mod_idemp_l by lia.
    + apply Z.ltb_ge in Gt.
      replace (t mod 3600 =? 1800) with true by (symmetry; apply Z.eqb_eq; lia).
      simpl. rewrite even_mod_24, <- Z.negb_odd.
      destruct (Z.odd (t / 3600)); simpl.
      * rewrite Z.div_mul by lia. now rewrite Z.add_mod_idemp_l by lia.
      * now rewrite Z.div_mul by lia.
Qed.

Lemma value_counts_cons (c : option Z) (col : list (option Z)) (v : Z) :
  value_counts (c :: col) v =
  ((if option_Z_dec c (Some v) then 1 else 0) + value_counts col v)%nat.
Proof.
  unfold value_counts. simpl. now destruct (option_Z_dec c (Some v)).
Qed.

Lemma hit_sum_none (hs : list Z) :
  list_sum (map (fun h => if option_Z_dec None (Some h) then 1%nat else 0%nat) hs) = 0%nat.
Proof.
  induction hs as [|h t IH]; [reflexivity|]. rewrite map_cons, list_sum_cons, IH.
  now destruct (option_Z_dec None (Some h)).
Qed.

Lemma hit_sum_absent (v : Z) (hs : list Z) :
  ~ In v hs ->
  list_sum (map (fun h => if option_Z_dec (Some v) (Some h) then 1%nat else 0%nat) hs) = 0%nat.
Proof.
  induction hs as [|h t IH]; intros H; [reflexivity|].
  rewrite map_cons, list_sum_cons, IH by (intros Hin; apply H; now right).
  destruct (option_Z_dec (Some v) (Some h)) as [E|_]; [|reflexivity].
  exfalso. apply H. left. congruence.
Qed.

Lemma hit_sum_once (v : Z) (hs : list Z) :
  NoDup hs -> In v hs ->
  list_sum (map (fun h => if option_Z_dec (Some v) (Some h) then 1%nat else 0%nat) hs) = 1%nat.
Proof.
  induction hs as [|h t IH]; intros Hnd Hin; [contradiction|].
  inversion Hnd as [|? ? Hh Ht]; subst. rewrite map_cons, list_sum_cons.
  destruct (option_Z_dec (Some v) (Some h)) as [E|Hne].
  - injection E as ->. now rewrite hit_sum_absent.
  - destruct Hin as [->|Hin]; [congruence|]. now rewrite IH.
Qed.

Lemma hours_of_day_distinct : NoDup hours_of_day.
Proof.
  unfold hours_of_day. generalize (seq_NoDup 24 0). generalize (seq 0 24).
  induction l as [|n t IH]; intros H; simpl; [constructor|].
  inversion H as [|? ? Hn Ht]; subst. constructor; [|now apply IH].
  intros Hin. apply in_map_iff in Hin as (k & Hk & Hin).
  apply Nat2Z.inj in Hk. now subst.
Qed.

Lemma hours_of_day_In (v : Z) : 0 <= v < 24 -> In v hours_of_day.
Proof.
  intros H. unfold hours_of_day. apply in_map_iff. exists (Z.to_nat v).
  split; [lia|]. apply in_seq. lia.
Qed.

(** X16.  No message is lost between the hours: over the 24 hours of the
    day, the counts of a sender's rounded hours add up to the number of the
    sender's rows that have a timestamp. *)
Theorem X16_hour_counts_total :
  forall (df : list RowRT) (m : option string),
    list_sum (map (value_counts (rounded_hours df m)) hours_of_day) =
    List.length (filter (fun r => is_some (datetime (base r))) (of_messenger df m)).
Proof.
  intros df m. unfold rounded_hours.
  induction (of_messenger df m) as [|r t IH].
  - simpl. unfold value_counts. simpl.
    induction hours_of_day as [|h hs IHh]; [reflexivity|]. simpl. exact IHh.
  - cbn [map filter].
    assert (E : forall hs c col,
               list_sum (map (value_counts (c :: col)) hs) =
               (list_sum (map (fun h => if option_Z_dec c (Some h)
                                        then 1%nat else 0%nat) hs) +
                list_sum (map (value_counts col) hs))%nat).
    { induction hs as [|h hs IHh]; intros c col; [reflexivity|].
      rewrite !map_cons, !list_sum_cons, IHh, value_counts_cons. lia. }
    rewrite E, IH. destruct (datetime (base r)) as [ts|]; cbn [option_map is_some].
    + rewrite hit_sum_once; [reflexivity|apply hours_of_day_distinct|].
      apply hours_of_day_In. unfold hour. apply Z.mod_pos_bound. lia.
    + now rewrite hit_sum_none.
Qed.

(** ** The estimator on its own labels *)

Lemma gaps_fst (prev : option Z) (df : Frame Row) :
  map fst (gaps prev df) = map fst df.
Proof.
  revert prev. induction df as [|[i r] t IH]; intros prev; simpl; [reflexivity|].
  now rewrite IH.
Qed.

Lemma gaps_adjacent (prev : option Z) (s1 s2 : Frame Row) (j i : nat) (q r : Row) :
  In (i, attach (sub (datetime r) (datetime q)) r)
     (gaps prev (s1 ++ (j, q) :: (i, r) :: s2)).
Proof.
  revert prev. induction s1 as [|[k x] t IH]; intros prev; simpl.
  - right. now left.
  - right. apply IH.
Qed.

Lemma switches_labels (prev : option string) (df : Frame Row) :
  NoDup (map fst df) -> NoDup (map fst (switches prev df)).
Proof.
  revert prev. induction df as [|[i r] t IH]; intros prev H; simpl; [constructor|].
  inversion H as [|? ? Hi Ht]; subst.
  destruct (ne (messenger r) prev); [|now apply IH].
  simpl. constructor; [|now apply IH].
  intros Hin. apply Hi. apply in_map_iff in Hin as (x & Hx & Hin).
  apply switches_In in Hin. apply in_map_iff. now exists x.
Qed.

Lemma response_at_absent (g : Frame RowRT) (i : nat) :
  ~ In i (map fst g) -> response_at g i = None.
Proof.
  unfold response_at. induction g as [|[j q] t IH]; intros H; simpl; [reflexivity|].
  destruct (Nat.eqb_spec j i) as [->|Hne].
  - exfalso. apply H. now left.
  - apply IH. intros Hin. apply H. now right.
Qed.

Lemma response_at_filter (limit : Z) (g : Frame RowRT) (i : nat) (x : RowRT) :
  NoDup (map fst g) ->
  In (i, x) g ->
  response_at (filter (le_limit limit) g) i =
  if le_limit limit (i, x) then response_time x else None.
Proof.
  induction g as [|[j q] t IH]; intros Hnd Hin; [contradiction|].
  inversion Hnd as [|? ? Hj Ht]; subst. destruct Hin as [E|Hin].
  - injection E as -> ->. cbn [filter].
    destruct (le_limit limit (i, x)) eqn:L.
    + unfold response_at. simpl. now rewrite Nat.eqb_refl.
    + apply response_at_absent. intros Hin. apply Hj.
      apply in_map_iff in Hin as (y & Hy & Hin). apply filter_In in Hin as [Hin _].
      apply in_map_iff. now exists y.
  - assert (Hne : j <> i).
    { intros ->. apply Hj. apply in_map_iff. now exists (i, x). }
    cbn [filter]. destruct (le_limit limit (j, q)).
    + unfold response_at. simpl. apply Nat.eqb_neq in Hne. rewrite Hne.
      now apply IH.
    + now apply IH.
Qed.

(** X17.  When no two reconstructed records agree on every column, the
    output of line 69 is the reconstructed sequence in line order, each
    record with the response time that lines 65-68 computed under its own
    label, or none. *)
Theorem X17_distinct_records_joined_by_label :
  forall (lines : list string) (df : Frame Row),
    reconstruct lines = ok df ->
    NoDup (map snd df) ->
    main lines = ok (join_on_index df (response_times response_timelimit df)).
Proof.
  intros lines df R Hs. rewrite main_pass, R. unfold fmap. simpl. f_equal.
  apply estimate_distinct; [|exact Hs].
  apply reconstruct_ok_inv in R as (_ & _ & ->).
  unfold fillna_ffill. rewrite ffill_from_fst. apply rows_from_labels.
Qed.

(** X18.  The response time of lines 65-68: for two sender switches that
    follow each other, the later one gets the time since the earlier one
    when that is at most the limit, and nothing when it is more. *)
Theorem X18_response_time_is_gap_within_limit :
  forall (limit : Z) (df s1 s2 : Frame Row) (j i : nat) (q r : Row) (a b : Z),
    NoDup (map fst df) ->
    boolean_index df (sender_change df) = s1 ++ (j, q) :: (i, r) :: s2 ->
    datetime q = Some a ->
    datetime r = Some b ->
    response_at (response_times limit df) i =
    if b - a <=? Datetime.hours limit then Some (b - a) else None.
Proof.
  intros limit df s1 s2 j i q r a b Hnd Hsw Hq Hr.
  rewrite sender_change_switches in Hsw.
  pose proof (switches_labels None df Hnd) as Hl. rewrite Hsw in Hl.
  rewrite response_times_pass, Hsw.
  rewrite (response_at_filter _ _ i (attach (sub (datetime r) (datetime q)) r)).
  - unfold le_limit. simpl. rewrite Hq, Hr. simpl.
    now destruct (b - a <=? Datetime.hours limit).
  - now rewrite gaps_fst.
  - apply gaps_adjacent.
Qed.

(** X19.  A row that line 65 does not select has no response time under
    its label, and neither has the first row of the frame. *)
Theorem X19_no_response_time_off_the_switches :
  forall (limit : Z) (df : Frame Row) (i : nat),
    NoDup (map fst df) ->
    (~ In i (map fst (boolean_index df (sender_change df))) \/
     exists r t, df = (i, r) :: t) ->
    response_at (response_times limit df) i = None.
Proof.
  intros limit df i Hnd H. rewrite sender_change_switches in H.
  rewrite response_times_pass. destruct H as [H|(r & t & ->)].
  - apply response_at_absent. intros Hin. apply H.
    apply in_map_iff in Hin as (y & Hy & Hin). apply filter_In in Hin as [Hin _].
    rewrite <- (gaps_fst None). apply in_map_iff. now exists y.
  - cbn [switches]. replace (ne (messenger r) None) with true by now destruct (messenger r).
    pose proof (switches_labels None ((i, r) :: t) Hnd) as Hl.
    cbn [switches] in Hl.
    replace (ne (messenger r) None) with true in Hl by now destruct (messenger r).
    rewrite (response_at_filter _ _ i (attach (sub (datetime r) None) r)).
    + unfold le_limit. simpl. now destruct (datetime r).
    + now rewrite gaps_fst.
    + now left.
Qed.

Lemma scenario_A_labels : NoDup (map fst scenario_A_df).
Proof.
  repeat (apply NoDup_cons;
          [simpl; intros H;
           repeat (destruct H as [H|H]; [discriminate H|]); exact H|]).
  apply NoDup_nil.
Qed.

Lemma scenario_A_records : NoDup (map snd scenario_A_df).
Proof.
  repeat (apply NoDup_cons;
          [vm_compute; intros H;
           repeat (destruct H as [H|H]; [discriminate H|]); exact H|]).
  apply NoDup_nil.
Qed.

Lemma X17_witness :
  main scenario_A =
  ok (join_on_index scenario_A_df (response_times response_timelimit scenario_A_df)).
Proof.
  exact (X17_distinct_records_joined_by_label
           scenario_A scenario_A_df eq_refl scenario_A_records).
Defined.

Lemma X18_witness :
  response_at (response_times 6 scenario_A_df) 1 =
  if 1672567500 - 1672567200 <=? Datetime.hours 6
  then Some (1672567500 - 1672567200) else None.
Proof.
  exact (X18_response_time_is_gap_within_limit
           6 scenario_A_df [] []
           0%nat 1%nat
           (record "01.01.23, 10:00:00" "Alice" "Hi")
           (record "01.01.23, 10:05:00" "Bob" "Hello")
           1672567200 1672567500
           scenario_A_labels eq_refl eq_refl eq_refl).
Defined.

Lemma X19_witness :
  response_at (response_times 6 scenario_A_df) 2 = None.
Proof.
  refine (X19_no_response_time_off_the_switches 6 scenario_A_df 2
            scenario_A_labels (or_introl _)).
  vm_compute. intros H.
  repeat (destruct H as [H|H]; [discriminate H|]). exact H.
Defined.

(** ** What the classifier can return *)

Lemma take_while_forallb (p : ascii -> bool) (s : Re.text) :
  forallb p (take_while p s) = true.
Proof.
  induction s as [|c t IH]; simpl; [reflexivity|].
  destruct (p c) eqn:E; simpl; [now rewrite E|reflexivity].
Qed.

Lemma has_shape_firstn (cs : list (ascii -> bool)) (s : Re.text) :
  has_shape cs s = true ->
  has_shape cs (firstn (List.length cs) s) = true /\
  List.length (firstn (List.length cs) s) = List.length cs.
Proof.
  revert s. induction cs as [|p cs IH]; intros s H; [now split|].
  destruct s as [|c s]; [discriminate|]. simpl in *.
  apply andb_prop in H as [Hc Hs]. destruct (IH s Hs) as [H1 H2].
  rewrite Hc, H1, H2. now split.
Qed.

Lemma split_prefix_parts (s dt who rest : Re.text) :
  split_prefix s = Some (dt, who, rest) ->
  has_shape datetime_shape dt = true /\ List.length dt = 18%nat /\
  forallb not_colon who = true.
Proof.
  unfold split_prefix. destruct s as [|c t]; [discriminate|].
  destruct (Ascii.eqb "[" c && has_shape datetime_shape t) eqn:E; [|discriminate].
  apply andb_prop in E as [_ Hs].
  destruct (skipn 18 t) as [|c1 [|c2 t2]]; try discriminate.
  destruct (Ascii.eqb "]" c1 && Ascii.eqb " " c2); [|discriminate].
  destruct (drop_while not_colon t2) as [|c3 [|c4 r]]; try discriminate.
  destruct (Ascii.eqb ":" c3 && Ascii.eqb " " c4); [|discriminate].
  intros [= <- <- <-].
  destruct (has_shape_firstn datetime_shape t Hs) as [H1 H2].
  split; [exact H1|]. split; [exact H2|]. apply take_while_forallb.
Qed.

(** X20.  Whatever the line, the parts the classifier returns are well
    formed: a captured timestamp has 18 characters of the shape of the
    pattern, a captured sender has no colon, and the body has no newline. *)
Theorem X20_classified_parts_well_formed :
  forall (line : string) (g : GroupDict),
    classify line = ok g ->
    (forall dt, gd_datetime g = Some dt ->
                String.length dt = 18%nat /\
                has_shape datetime_shape (list_ascii_of_string dt) = true) /\
    (forall who, gd_messenger g = Some who ->
                 forallb not_colon (list_ascii_of_string who) = true) /\
    (forall msg, gd_message g = Some msg ->
                 forallb dot (list_ascii_of_string msg) = true).
Proof.
  intros line g H. rewrite classify_parsed_line in H. injection H as <-.
  unfold parsed_line.
  destruct (split_prefix (list_ascii_of_string line)) as [[[dt who] rest]|] eqn:E;
    cbn [gd_datetime gd_messenger gd_message].
  - destruct (split_prefix_parts _ _ _ _ E) as (H1 & H2 & H3).
    split; [|split].
    + intros d [= <-]. rewrite <- length_list_ascii.
      rewrite list_ascii_of_string_of_list_ascii. now split.
    + intros w [= <-]. now rewrite list_ascii_of_string_of_list_ascii.
    + intros m [= <-]. rewrite list_ascii_of_string_of_list_ascii.
      apply take_while_forallb.
  - split; [|split]; try discriminate.
    intros m [= <-]. rewrite list_ascii_of_string_of_list_ascii.
    apply take_while_forallb.
Qed.

Lemma X20_witness :
  (forall dt, Some "01.01.23, 10:00:00" = Some dt ->
              String.length dt = 18%nat /\
              has_shape datetime_shape (list_ascii_of_string dt) = true) /\
  (forall who, Some "Alice" = Some who ->
               forallb not_colon (list_ascii_of_string who) = true) /\
  (forall msg, Some "Hi" = Some msg ->
               forallb dot (list_ascii_of_string msg) = true).
Proof.
  exact (X20_classified_parts_well_formed
           (ln "[01.01.23, 10:00:00] Alice: Hi")
           {| gd_datetime := Some "01.01.23, 10:00:00";
              gd_messenger := Some "Alice";
              gd_message := Some "Hi" |}
           eq_refl).
Defined.

(** ** The remaining theorems at concrete inputs *)

Lemma X4_witness :
  let c := compute_word_usage_frequency ["to be or"; "not to be"] in
  NoDup (map fst c) /\
  (forall k, In k (map fst c) <-> In k (flat_map split ["to be or"; "not to be"])) /\
  counter_total c = List.length (flat_map split ["to be or"; "not to be"]).
Proof.
  exact (X4_counter_keys_and_total ["to be or"; "not to be"]).
Defined.

Lemma X12_witness :
  messenger (base (attach (Some 300) (record "01.01.23, 10:05:00" "Bob" "Hello"))) <> None.
Proof.
  refine (proj2 (X12_message_counts_partition
                   [attach None (orphan "there");
                    attach (Some 300) (record "01.01.23, 10:05:00" "Bob" "Hello")])
                (Some "Bob") _ _).
  left. reflexivity.
Defined.

(** ** C7: two runs of the pipeline *)

Lemma lengths_defined (rows : list RowRT) :
  Forall (fun r => nonempty_body (base r)) rows ->
  Summary.lengths rows =
  inr (map (fun r => match message (base r) with
                     | Some text => String.length text
                     | None => 0%nat
                     end) rows).
Proof.
  induction rows as [|r t IH]; intros H; [reflexivity|].
  inversion H as [|? ? (b & Hb & _) Ht]; subst.
  cbn [Summary.lengths map]. now rewrite Hb, (IH Ht).
Qed.

Lemma of_messenger_missing (df : list RowRT) : of_messenger df None = [].
Proof.
  unfold of_messenger. induction df as [|r t IH]; [reflexivity|].
  cbn [filter]. now destruct (messenger (base r)).
Qed.

Lemma column_missing (df : list RowRT) :
  Summary.column df None = inl Summary.CannotConvertNaN.
Proof. unfold Summary.column. now rewrite of_messenger_missing. Qed.

Lemma of_messenger_present (df : list RowRT) (w : string) :
  In (Some w) (messengers df) -> of_messenger df (Some w) <> [].
Proof.
  unfold messengers. rewrite nodup_In. intros H.
  apply in_map_iff in H as (r & Hr & Hin).
  assert (Hf : In r (of_messenger df (Some w))).
  { apply filter_In. split; [exact Hin|]. rewrite Hr. simpl. apply String.eqb_refl. }
  intros E. rewrite E in Hf. contradiction.
Qed.

Lemma column_present (df : list RowRT) (w : string) :
  Forall (fun r => nonempty_body (base r)) df ->
  In (Some w) (messengers df) ->
  Summary.column df (Some w) = inr (Summary.column_of df (Some w)).
Proof.
  intros Hb Hw. unfold Summary.column, Summary.column_of.
  assert (F : Forall (fun r => nonempty_body (base r)) (of_messenger df (Some w))).
  { rewrite Forall_forall in *. intros r Hr. apply Hb.
    now apply filter_In in Hr as [Hr _]. }
  rewrite (lengths_defined _ F).
  pose proof (of_messenger_present df w Hw) as Hne.
  destruct (of_messenger df (Some w)) as [|r t]; [congruence|]. reflexivity.
Qed.

(** On a frame of line 69 the table is defined unless a record has no
    sender, whatever the order of the senders. *)
Lemma df_averages_columns (order : list (option string)) (df : list RowRT) :
  Forall (fun r => nonempty_body (base r)) df ->
  (forall m, In m order -> In m (messengers df)) ->
  Summary.df_averages order df =
  if existsb is_none order then inl Summary.CannotConvertNaN
  else inr (map (Summary.column_of df) order).
Proof.
  intros Hb. induction order as [|m t IH]; intros Hin; [reflexivity|].
  cbn [Summary.df_averages existsb map].
  destruct m as [w|].
  - rewrite (column_present df w Hb) by (apply Hin; now left).
    rewrite IH by (intros m Hm; apply Hin; now right).
    cbn [is_none is_some negb orb]. now destruct (existsb is_none t).
  - now rewrite column_missing.
Qed.

Lemma existsb_permutation {A} (f : A -> bool) (l l' : list A) :
  Permutation l l' -> existsb f l = existsb f l'.
Proof.
  intros P. destruct (existsb f l) eqn:E, (existsb f l') eqn:E'; try reflexivity.
  - apply existsb_exists in E as (x & Hx & Hf).
    assert (H : existsb f l' = true).
    { apply existsb_exists. exists x. split; [|exact Hf].
      now apply (Permutation_in x P). }
    congruence.
  - apply existsb_exists in E' as (x & Hx & Hf).
    assert (H : existsb f l = true).
    { apply existsb_exists. exists x. split; [|exact Hf].
      now apply (Permutation_in x (Permutation_sym P)). }
    congruence.
Qed.

Lemma column_of_names (order : list (option string)) (df : list RowRT) :
  map Summary.name (map (Summary.column_of df) order) = order.
Proof.
  induction order as [|m t IH]; simpl; [reflexivity|]. now rewrite IH.
Qed.

(** C7, as the code has it.  Two runs on the same input, each with the
    iteration order it meets for the set of senders, produce the same frame
    of records; they raise the same exception or produce tables with the
    same columns (one per sender, with the same name and the same values),
    each table in the order of its own run. *)
Theorem C7_two_runs_same_columns :
  forall (lines : list string) (o1 o2 : list (option string)),
    (forall df, main lines = ok df ->
                Summary.iteration_order o1 df /\ Summary.iteration_order o2 df) ->
    fst (Summary.run o1 lines) = fst (Summary.run o2 lines) /\
    match snd (Summary.run o1 lines), snd (Summary.run o2 lines) with
    | inr t1, inr t2 =>
        Permutation t1 t2 /\
        NoDup (map Summary.name t1) /\
        map Summary.name t1 = o1 /\
        map Summary.name t2 = o2
    | inl e1, inl e2 => e1 = e2
    | _, _ => False
    end.
Proof.
  intros lines o1 o2 H. split; [reflexivity|]. unfold Summary.run. cbn [snd].
  destruct (main lines) as [e|df] eqn:M; [reflexivity|].
  destruct (H df eq_refl) as [P1 P2]. unfold Summary.iteration_order in P1, P2.
  pose proof (main_bodies lines df M) as Hb.
  rewrite !(df_averages_columns _ df Hb).
  2:{ intros m Hm. now apply (Permutation_in m P2). }
  2:{ intros m Hm. now apply (Permutation_in m P1). }
  assert (P : Permutation o1 o2).
  { eapply Permutation_trans; [exact P1|]. now apply Permutation_sym. }
  rewrite (existsb_permutation is_none o1 o2 P).
  destruct (existsb is_none o2); [reflexivity|].
  rewrite !column_of_names. split; [now apply Permutation_map|].
  split; [|split; reflexivity].
  apply (Permutation_NoDup (Permutation_sym P1)). apply NoDup_nodup.
Qed.

(** C7 as stated fails at [scenario_A]: the set of senders has two
    iteration orders, and the two runs write the columns of the table in
    different arrangements. *)
Lemma C7_column_arrangement_differs :
  main scenario_A = ok scenario_A_out /\
  Summary.iteration_order [Some "Alice"; Some "Bob"] scenario_A_out /\
  Summary.iteration_order [Some "Bob"; Some "Alice"] scenario_A_out /\
  snd (Summary.run [Some "Alice"; Some "Bob"] scenario_A) =
  inr [scenario_A_Alice; scenario_A_Bob] /\
  snd (Summary.run [Some "Bob"; Some "Alice"] scenario_A) =
  inr [scenario_A_Bob; scenario_A_Alice] /\
  snd (Summary.run [Some "Alice"; Some "Bob"] scenario_A) <>
  snd (Summary.run [Some "Bob"; Some "Alice"] scenario_A).
Proof.
  split; [vm_compute; reflexivity|].
  split; [apply Permutation_refl|].
  split; [apply perm_swap|].
  split; [vm_compute; reflexivity|].
  split; [vm_compute; reflexivity|].
  vm_compute. discriminate.
Qed.

Lemma C7_witness :
  fst (Summary.run [Some "Alice"; Some "Bob"] scenario_A) =
  fst (Summary.run [Some "Bob"; Some "Alice"] scenario_A) /\
  match snd (Summary.run [Some "Alice"; Some "Bob"] scenario_A),
        snd (Summary.run [Some "Bob"; Some "Alice"] scenario_A) with
  | inr t1, inr t2 =>
      Permutation t1 t2 /\
      NoDup (map Summary.name t1) /\
      map Summary.name t1 = [Some "Alice"; Some "Bob"] /\
      map Summary.name t2 = [Some "Bob"; Some "Alice"]
  | inl e1, inl e2 => e1 = e2
  | _, _ => False
  end.
Proof.
  refine (C7_two_runs_same_columns
            scenario_A [Some "Alice"; Some "Bob"] [Some "Bob"; Some "Alice"] _).
  intros df H.
  assert (E : df = scenario_A_out).
  { rewrite scenario_A_main in H. injection H as <-. reflexivity. }
  rewrite E. split; [apply Permutation_refl|apply perm_swap].
Defined.

(** With no sender switch [df_response_times] is empty and the merge returns
    the records in line order, equal ones included. *)
Example one_sender_repeats_main :
  main one_sender_repeats =
  ok [attach None (record "01.01.23, 10:00:00" "Alice" "hi");
      attach None (record "01.01.23, 10:00:00" "Alice" "yo");
      attach None (record "01.01.23, 10:00:00" "Alice" "hi")].
Proof. vm_compute. reflexivity. Qed.
